(** * Statement normalisation engine of dashboard.py

    A shallow embedding of the helper functions [try_parse_date] and
    [extract_merchant] and of the column classification, merchant,
    amount/type and display steps of the script body, followed by the
    properties of the specification that were checked against them.

    Text is modelled as a sequence of code points below 256 (the type
    [ascii]); on that range the classes used by the source
    (whitespace, digits, letters, case folding of the letters of the
    keywords) coincide with Python's. *)

From Stdlib Require Import String Ascii List Bool Arith ZArith QArith Qabs Lia Lqa.
From Stdlib Require Import DecimalString.
Import ListNotations.

Local Open Scope string_scope.
Local Open Scope list_scope.
Local Open Scope nat_scope.

(* ================================================================= *)
(** ** Python text primitives *)

Module Py.

Definition text := list ascii.

Definition of_string (s : string) : text := list_ascii_of_string s.
Definition to_string (s : text) : string := string_of_list_ascii s.

Definition code (c : ascii) : nat := nat_of_ascii c.

Definition between (lo hi : nat) (c : ascii) : bool :=
  (lo <=? code c) && (code c <=? hi).

(** [str.isspace] and the class [\s] of [re] on code points below 256. *)
Definition is_space (c : ascii) : bool :=
  between 9 13 c || between 28 32 c || (code c =? 133) || (code c =? 160).

(** The class [\d]. *)
Definition is_digit (c : ascii) : bool := between 48 57 c.

Definition is_upper (c : ascii) : bool := between 65 90 c.
Definition is_lower (c : ascii) : bool := between 97 122 c.
Definition is_alnum (c : ascii) : bool := is_upper c || is_lower c || is_digit c.

Definition upper_char (c : ascii) : ascii :=
  if is_lower c then ascii_of_nat (code c - 32) else c.
Definition lower_char (c : ascii) : ascii :=
  if is_upper c then ascii_of_nat (code c + 32) else c.

(** [s.upper()], exact on the letters a-z; the other code points are
    left alone, which does not change a comparison with ["UPI"]. *)
Definition upper (s : text) : text := map upper_char s.

Definition eqb_char (a b : ascii) : bool := Ascii.eqb a b.

Fixpoint eqb_text (a b : text) : bool :=
  match a, b with
  | [], [] => true
  | x :: a', y :: b' => eqb_char x y && eqb_text a' b'
  | _, _ => false
  end.

Fixpoint lstrip (s : text) : text :=
  match s with
  | c :: s' => if is_space c then lstrip s' else s
  | [] => []
  end.

Definition rstrip (s : text) : text := rev (lstrip (rev s)).

(** [s.strip()] *)
Definition strip (s : text) : text := rstrip (lstrip s).

(** [s[:n]] *)
Definition slice_to (n : nat) (s : text) : text := firstn n s.
Arguments slice_to : simpl never.

(** ['-' in s] and friends: membership of one character. *)
Definition contains_char (c : ascii) (s : text) : bool := existsb (eqb_char c) s.

(** [t] occurs in [s] as a contiguous piece. *)
Definition infix (t s : text) : Prop := exists a b, s = a ++ t ++ b.

End Py.

(* ================================================================= *)
(** ** The fragment of [re] used by the source

    A backtracking matcher in continuation-passing style: alternatives
    are tried left to right, greedy repetition tries the longest
    extension first and lazy repetition the shortest, as the [re]
    module does.  Repetition is only ever applied to a character class
    in the source, so it is restricted to classes here. *)

Module Re.

Import Py.

Inductive regex : Type :=
| Chr (p : ascii -> bool)        (* one character of a class *)
| Eps                            (* the empty pattern *)
| Seq (r1 r2 : regex)
| Alt (r1 r2 : regex)            (* r1|r2 *)
| Star (p : ascii -> bool)       (* [p]*  *)
| StarLazy (p : ascii -> bool)   (* [p]*? *)
| Group (r : regex)              (* the capturing group ( ... ) *)
| Eos                            (* $ *)
| Bos.                           (* ^ *)

(** A literal character under [re.IGNORECASE]. *)
Definition ci (c : ascii) : ascii -> bool :=
  fun x => eqb_char (lower_char x) (lower_char c).

(** A literal character, case-sensitive. *)
Definition cs (c : ascii) : ascii -> bool := eqb_char c.

Definition one_of (cs' : string) : ascii -> bool :=
  fun x => existsb (eqb_char x) (of_string cs').

Definition none_of (cs' : string) : ascii -> bool :=
  fun x => negb (one_of cs' x).

Fixpoint lit_text (s : text) : regex :=
  match s with
  | [] => Eps
  | [c] => Chr (ci c)
  | c :: s' => Seq (Chr (ci c)) (lit_text s')
  end.

(** A literal word under [re.IGNORECASE]. *)
Definition lit (s : string) : regex := lit_text (of_string s).

Definition Plus (p : ascii -> bool) : regex := Seq (Chr p) (Star p).
Definition PlusLazy (p : ascii -> bool) : regex := Seq (Chr p) (StarLazy p).
Definition Opt (r : regex) : regex := Alt r Eps.
(** [p]{3,} *)
Definition AtLeast3 (p : ascii -> bool) : regex :=
  Seq (Chr p) (Seq (Chr p) (Seq (Chr p) (Star p))).

Fixpoint seqs (rs : list regex) : regex :=
  match rs with
  | [] => Eps
  | [r] => r
  | r :: rs' => Seq r (seqs rs')
  end.

Fixpoint alts (rs : list regex) : regex :=
  match rs with
  | [] => Eps
  | [r] => r
  | r :: rs' => Alt r (alts rs')
  end.

(** The match object: where the match ended (as the remaining input) and
    the text of group 1, if the group took part. *)
Record Match : Type := mkMatch { m_rest : text; m_group : option text }.

Definition orelse {A : Type} (a b : option A) : option A :=
  match a with Some _ => a | None => b end.

Section Matcher.

Variable A : Type.

Fixpoint star_greedy (p : ascii -> bool) (s : text)
         (k : text -> option A) : option A :=
  match s with
  | c :: s' =>
      if p c then orelse (star_greedy p s' k) (k s) else k s
  | [] => k s
  end.

Fixpoint star_lazy (p : ascii -> bool) (s : text)
         (k : text -> option A) : option A :=
  orelse (k s)
         (match s with
          | c :: s' => if p c then star_lazy p s' k else None
          | [] => None
          end).

(** [n0] is the length of the whole subject, so that [^] can tell
    whether the current position is the first one. *)
Fixpoint run (n0 : nat) (r : regex) (s : text) (g : option text)
         (k : text -> option text -> option A) : option A :=
  match r with
  | Chr p =>
      match s with
      | c :: s' => if p c then k s' g else None
      | [] => None
      end
  | Eps => k s g
  | Seq r1 r2 => run n0 r1 s g (fun s' g' => run n0 r2 s' g' k)
  | Alt r1 r2 => orelse (run n0 r1 s g k) (run n0 r2 s g k)
  | Star p => star_greedy p s (fun s' => k s' g)
  | StarLazy p => star_lazy p s (fun s' => k s' g)
  | Group r1 =>
      run n0 r1 s g
          (fun s' _ => k s' (Some (firstn (length s - length s') s)))
  | Eos =>
      (* end of the subject, or just before a newline that ends it *)
      match s with
      | [] => k s g
      | [c] => if code c =? 10 then k s g else None
      | _ => None
      end
  | Bos => if length s =? n0 then k s g else None
  end.

End Matcher.

Arguments star_greedy {A}.
Arguments star_lazy {A}.
Arguments run {A}.

Definition accept : text -> option text -> option Match :=
  fun s g => Some (mkMatch s g).

(** [re.match(r, s)]: a match at the first position only. *)
Definition re_match (r : regex) (s : text) : option Match :=
  run (length s) r s None accept.

Fixpoint search_from (n0 : nat) (r : regex) (s : text) : option Match :=
  orelse (run n0 r s None accept)
         (match s with
          | [] => None
          | _ :: s' => search_from n0 r s'
          end).

(** [re.search(r, s)]: the leftmost position at which [r] matches. *)
Definition re_search (r : regex) (s : text) : option Match :=
  search_from (length s) r s.

(** [m.group(1)]; a group that did not take part gives [None] in
    Python, on which the source would then fail: every pattern of the
    source has its group on every path, see [group1_defined]. *)
Definition group1 (m : Match) : text :=
  match m_group m with Some g => g | None => [] end.

(** [re.split(r"[...]", s)] for a pattern that is one character class. *)
Fixpoint split_on (p : ascii -> bool) (s : text) : list text :=
  match s with
  | [] => [[]]
  | c :: s' =>
      if p c then [] :: split_on p s'
      else match split_on p s' with
           | part :: parts => (c :: part) :: parts
           | [] => [[c]]
           end
  end.

(** *** What a pattern can match, declaratively *)

(** [star p s s']: [s'] is [s] without some leading characters of
    class [p]. *)
Inductive star (p : ascii -> bool) : text -> text -> Prop :=
| star_stop s : star p s s
| star_more c s s' : p c = true -> star p s s' -> star p (c :: s) s'.

(** [step n0 r s g s' g']: from the position with remaining input [s]
    and group text [g], pattern [r] can consume input up to [s'],
    leaving the group text [g']. *)
Inductive step (n0 : nat) : regex -> text -> option text -> text -> option text -> Prop :=
| step_chr p c s g : p c = true -> step n0 (Chr p) (c :: s) g s g
| step_eps s g : step n0 Eps s g s g
| step_seq r1 r2 s g s1 g1 s2 g2 :
    step n0 r1 s g s1 g1 -> step n0 r2 s1 g1 s2 g2 ->
    step n0 (Seq r1 r2) s g s2 g2
| step_alt_l r1 r2 s g s' g' :
    step n0 r1 s g s' g' -> step n0 (Alt r1 r2) s g s' g'
| step_alt_r r1 r2 s g s' g' :
    step n0 r2 s g s' g' -> step n0 (Alt r1 r2) s g s' g'
| step_star p s g s' : star p s s' -> step n0 (Star p) s g s' g
| step_star_lazy p s g s' : star p s s' -> step n0 (StarLazy p) s g s' g
| step_group r s g s' g' :
    step n0 r s g s' g' ->
    step n0 (Group r) s g s' (Some (firstn (length s - length s') s))
| step_eos_end g : step n0 Eos [] g [] g
| step_eos_newline c g : code c = 10 -> step n0 Eos [c] g [c] g
| step_bos s g : length s = n0 -> step n0 Bos s g s g.

(** Every path through the pattern goes through the group. *)
Fixpoint sets_group (r : regex) : bool :=
  match r with
  | Group _ => true
  | Seq r1 r2 => sets_group r1 || sets_group r2
  | Alt r1 r2 => sets_group r1 && sets_group r2
  | _ => false
  end.

(** A pattern built from the one class [p] alone. *)
Inductive over_class (p : ascii -> bool) : regex -> Prop :=
| oc_chr : over_class p (Chr p)
| oc_star : over_class p (Star p)
| oc_star_lazy : over_class p (StarLazy p)
| oc_eps : over_class p Eps
| oc_seq r1 r2 : over_class p r1 -> over_class p r2 -> over_class p (Seq r1 r2).

(** A pattern whose capturing groups are built from the class [p]. *)
Inductive groups_over (p : ascii -> bool) : regex -> Prop :=
| go_group r : over_class p r -> groups_over p (Group r)
| go_seq r1 r2 : groups_over p r1 -> groups_over p r2 -> groups_over p (Seq r1 r2)
| go_alt r1 r2 : groups_over p r1 -> groups_over p r2 -> groups_over p (Alt r1 r2)
| go_chr q : groups_over p (Chr q)
| go_star q : groups_over p (Star q)
| go_star_lazy q : groups_over p (StarLazy q)
| go_eps : groups_over p Eps
| go_eos : groups_over p Eos
| go_bos : groups_over p Bos.

End Re.

(* ================================================================= *)
(** ** [extract_merchant] *)

Module Merchant.

Import Py Re.

Definition dash : ascii -> bool := one_of "-".

(** The tail [(?:-|@|\s|$)] shared by patterns 1 and 2. *)
Definition name_end : regex :=
  alts [Chr dash; Chr (one_of "@"); Chr is_space; Eos].

(** r"UPI[-/]([^-@]+?)(?:-|@|\s|$)" *)
Definition pat_upi : regex :=
  seqs [lit "UPI"; Chr (one_of "-/"); Group (PlusLazy (none_of "-@")); name_end].

(** r"REV-UPI-[^-]+-([^-@]+?)(?:-|@|\s|$)" *)
Definition pat_rev : regex :=
  seqs [lit "REV-UPI-"; Plus (none_of "-"); Chr dash;
        Group (PlusLazy (none_of "-@")); name_end].

(** r"FT-[^-]+-[^-]+-\s*([^-]+?)(?:\s*-\s*[^-]{0,})?$", the last
    repetition being written [*] in the source *)
Definition pat_ft : regex :=
  seqs [lit "FT-"; Plus (none_of "-"); Chr dash; Plus (none_of "-"); Chr dash;
        Star is_space; Group (PlusLazy (none_of "-"));
        Opt (seqs [Star is_space; Chr dash; Star is_space; Star (none_of "-")]);
        Eos].

(** [A-Za-z0-9._-] *)
Definition handle_char (c : ascii) : bool := is_alnum c || one_of "._-" c.

(** r"@upi[:\s]*([A-Za-z0-9._-]+)" *)
Definition pat_atupi : regex :=
  seqs [lit "@upi"; Star (fun c => one_of ":" c || is_space c);
        Group (Plus handle_char)].

(** [A-Za-z0-9 &._@-] *)
Definition name_char (c : ascii) : bool := is_alnum c || one_of " &._@-" c.

(** r"to:?\s*([A-Za-z0-9 &._@-]{3,})" *)
Definition pat_to : regex :=
  seqs [lit "to"; Opt (Chr (one_of ":")); Star is_space;
        Group (AtLeast3 name_char)].

(** r"from:?\s*([A-Za-z0-9 &._@-]{3,})" *)
Definition pat_from : regex :=
  seqs [lit "from"; Opt (Chr (one_of ":")); Star is_space;
        Group (AtLeast3 name_char)].

(** r"^\d+$" *)
Definition pat_digits : regex := seqs [Bos; Plus is_digit; Eos].

Definition UPI : text := of_string "UPI".

(** [merchant.upper() != "UPI" and len(merchant) > 2] *)
Definition accept_name (merchant : text) : bool :=
  negb (eqb_text (upper merchant) UPI) && (2 <? length merchant).

(** Each rule gives [Some r] where the source executes [return r] and
    [None] where control falls through to the next rule. *)

(** Pattern 1 (lines 76-80). *)
Definition rule_upi (s : text) : option text :=
  match re_search pat_upi s with
  | Some m =>
      let merchant := strip (group1 m) in
      if accept_name merchant then Some merchant else None
  | None => None
  end.

(** Pattern 2 (lines 83-87). *)
Definition rule_rev (s : text) : option text :=
  match re_search pat_rev s with
  | Some m =>
      let merchant := strip (group1 m) in
      if accept_name merchant then Some merchant else None
  | None => None
  end.

(** Pattern 3 (lines 90-94). *)
Definition rule_ft (s : text) : option text :=
  match re_search pat_ft s with
  | Some m =>
      let merchant := strip (group1 m) in
      if 2 <? length merchant then Some merchant else None
  | None => None
  end.

(** Pattern 4 (lines 97-99). *)
Definition rule_atupi (s : text) : option text :=
  match re_search pat_atupi s with
  | Some m => Some (strip (group1 m))
  | None => None
  end.

(** Pattern 5, "to" (lines 102-104). *)
Definition rule_to (s : text) : option text :=
  match re_search pat_to s with
  | Some m => Some (strip (group1 m))
  | None => None
  end.

(** Pattern 5, "from" (lines 106-108). *)
Definition rule_from (s : text) : option text :=
  match re_search pat_from s with
  | Some m => Some (strip (group1 m))
  | None => None
  end.

Definition is_some {A : Type} (o : option A) : bool :=
  match o with Some _ => true | None => false end.

(** The test of the fallback loop (lines 114-116), on a stripped part. *)
Definition meaningful (part : text) : bool :=
  negb (eqb_text (upper part) UPI)
  && negb (eqb_text part [])
  && negb (is_some (re_match pat_digits part))
  && (2 <? length part).

(** The [for part in parts] loop (lines 112-117). *)
Fixpoint first_meaningful (parts : list text) : option text :=
  match parts with
  | [] => None
  | part :: rest =>
      let part := strip part in
      if meaningful part then Some (slice_to 60 part)
      else first_meaningful rest
  end.

(** Fallback split (lines 111-117). *)
Definition rule_split (s : text) : option text :=
  first_meaningful (split_on (one_of ",|:-") s).

(** The body of [extract_merchant] after [s = str(text)]. *)
Definition extract_merchant_text (s : text) : text :=
  match rule_upi s with Some r => r | None =>
  match rule_rev s with Some r => r | None =>
  match rule_ft s with Some r => r | None =>
  match rule_atupi s with Some r => r | None =>
  match rule_to s with Some r => r | None =>
  match rule_from s with Some r => r | None =>
  match rule_split s with Some r => r | None =>
  slice_to 60 s
  end end end end end end end.

(** [extract_merchant(text)]: [None] is a value on which [pd.isna] is
    true, [Some s] a value whose [str] is [s]. *)
Definition extract_merchant (text : option string) : string :=
  match text with
  | None => ""
  | Some s => to_string (extract_merchant_text (of_string s))
  end.

(** The rule whose [return] produced the result. *)
Inductive rule : Type :=
| Absent | RUpi | RRev | RFt | RAtUpi | RTo | RFrom | RSplit | RWhole.

Definition fired_text (s : text) : rule :=
  if is_some (rule_upi s) then RUpi
  else if is_some (rule_rev s) then RRev
  else if is_some (rule_ft s) then RFt
  else if is_some (rule_atupi s) then RAtUpi
  else if is_some (rule_to s) then RTo
  else if is_some (rule_from s) then RFrom
  else if is_some (rule_split s) then RSplit
  else RWhole.

Definition fired (text : option string) : rule :=
  match text with
  | None => Absent
  | Some s => fired_text (of_string s)
  end.


End Merchant.

(* ================================================================= *)
(** ** Cell values and the library functions the script calls *)

Module Values.

(** The value of a float64 that is not NaN: a rational or one of the
    two infinities.  The script takes the absolute value of such
    numbers and compares them with 0, which is exact; the rounding of
    the library calls that produce them is theirs (see [Env]). *)
Inductive num : Type :=
| Fin (q : Q)
| PosInf
| NegInf.

(** [abs(x)] *)
Definition num_abs (x : num) : num :=
  match x with
  | Fin q => Fin (Qabs q)
  | PosInf | NegInf => PosInf
  end.

(** [x == 0] *)
Definition num_is_zero (x : num) : bool :=
  match x with
  | Fin q => Qeq_bool q 0
  | PosInf | NegInf => false
  end.

(** [x > 0] *)
Definition num_gt0 (x : num) : bool :=
  match x with
  | Fin q => negb (Qle_bool q 0)
  | PosInf => true
  | NegInf => false
  end.

(** [x >= 0] *)
Definition num_nonneg (x : num) : bool :=
  match x with
  | Fin q => Qle_bool 0 q
  | PosInf => true
  | NegInf => false
  end.

Definition zero : num := Fin 0.

Record date : Type := mkDate { year : Z; month : Z; day : Z }.

(** A timestamp: its calendar date, the time of day and the offset of
    its time zone, if it has one. *)
Record datetime : Type :=
  mkDatetime { dt_date : date; dt_nanos : Z; dt_tz : option Z }.

(** What a cell of a frame can hold. *)
Inductive value : Type :=
| VNull                      (* None, NaN or NaT: [pd.isna] holds *)
| VStr (s : string)
| VNum (x : num)             (* a number that is not NaN *)
| VInt (z : Z)               (* a cell of an int64 or uint64 column *)
| VTime (t : datetime)       (* pd.Timestamp / np.datetime64 *)
| VDate (d : date).          (* datetime.date, made by [.dt.date] *)

(** The dtype of a column; [DInt] stands for int64 and uint64. *)
Inductive dtype : Type := DObject | DFloat | DInt | DBool | DDatetime.

Record Series : Type := mkSeries { dtype_of : dtype; cells : list value }.

(** [pd.isna(x)] *)
Definition isna (v : value) : bool :=
  match v with VNull => true | _ => false end.

(** The result of a call that can raise an exception derived from
    [Exception]. *)
Inductive outcome (A : Type) : Type :=
| Returns (a : A)
| Raises.

Arguments Returns {A}.
Arguments Raises {A}.

(** [a] and then [f] on what it returned, unless it raised. *)
Definition and_then {A B : Type} (a : outcome A) (f : A -> outcome B) : outcome B :=
  match a with
  | Returns x => f x
  | Raises => Raises
  end.

(** [try: body  except Exception: handler] *)
Definition try_except {A : Type} (body handler : outcome A) : outcome A :=
  match body with
  | Returns a => Returns a
  | Raises => handler
  end.

(** The library functions whose code is not part of the script.  Every
    definition below takes them as they come; [Sample.env] further down
    is one instance, used to evaluate examples. *)
Record Env : Type := mkEnv {
  (** whether [pd.to_numeric(col, errors='coerce')] gives an integer
      (int64 or uint64) column for a column with these texts; it gives
      a float64 column otherwise *)
  int_column : list string -> bool;
  (** the cell that [pd.to_numeric] gives for one text in an integer
      column *)
  to_int : string -> Z;
  (** the cell that [pd.to_numeric(col, errors='coerce')] gives for one
      text in a float64 column; [None] is NaN *)
  to_numeric : string -> option num;
  (** the float64 that an integer cell becomes when its column is
      converted to float64 *)
  float_of_int : Z -> num;
  (** [.str.replace(pat, repl)] on one cell, with the default of the
      installed pandas for reading [pat] as a regular expression *)
  str_replace : string -> string -> string -> string;
  (** [str(x)] / [astype(str)] of a value that is not a string *)
  repr : value -> string;
  (** [dateutil.parser.parse(s, dayfirst=False, fuzzy=True)] *)
  parser_parse : string -> outcome datetime;
  (** [pd.to_datetime(x)] of a timestamp *)
  to_datetime : datetime -> outcome datetime;
  (** one cell of [working["Date"].dt.date >= date_min] *)
  date_ge : value -> date -> bool;
  (** one cell of [working["Date"].dt.date <= date_max] *)
  date_le : value -> date -> bool;
  (** one row of the search mask of lines 246-251, from the search text
      and the cells Merchant, Category, Amount and Date_display *)
  search_hit : string -> value -> value -> value -> value -> bool;
  (** whether pandas made a datetime-like column of these cells, so
      that the accessor [.dt] of line 233 works; on any other column it
      raises AttributeError *)
  dt_ok : Series -> bool;
  (** whether the search of lines 246-251 for this text in the columns
      Merchant, Category, Amount and Date_display returns; [.str] raises
      on a column that holds no text and [str.contains] on a text that
      is not a regular expression *)
  search_ok : string -> Series -> Series -> Series -> Series -> bool
}.

(** [str(x)] *)
Definition str (E : Env) (v : value) : string :=
  match v with
  | VStr s => s
  | _ => repr E v
  end.

End Values.

(* ================================================================= *)
(** ** [try_parse_date] *)

Module Dates.

Import Py Values.

Section WithEnv.

Variable E : Env.

(** The result is a timestamp or [None] for [pd.NaT]. *)
Definition try_parse_date (x : value) : outcome (option datetime) :=
  try_except
    (if isna x then Returns None
     else match x with
          | VTime t =>
              match to_datetime E t with
              | Returns t' => Returns (Some t')
              | Raises => Raises
              end
          | _ =>
              let s := strip (of_string (str E x)) in
              if eqb_text s [] then Returns None
              else match parser_parse E (to_string s) with
                   | Returns t => Returns (Some t)
                   | Raises => Raises
                   end
          end)
    (Returns None).

(** The cell that [apply(try_parse_date)] stores. *)
Definition date_cell (x : value) : value :=
  match try_parse_date x with
  | Returns (Some t) => VTime t
  | Returns None => VNull
  | Raises => VNull
  end.

End WithEnv.

End Dates.

(* ================================================================= *)
(** ** Amount and type of one row (lines 208-226) *)

Module Amounts.

Import Py Values.

Fixpoint starts_with (p s : text) : bool :=
  match p, s with
  | [], _ => true
  | a :: p', b :: s' => eqb_char a b && starts_with p' s'
  | _ :: _, [] => false
  end.

(** [replace_from old new skip s]: [s.replace(old, new)] for a non-empty
    [old], where the first [skip] characters belong to an occurrence
    that was already replaced. *)
Fixpoint replace_from (old new : text) (skip : nat) (s : text) : text :=
  match s with
  | [] => []
  | c :: s' =>
      match skip with
      | S k => replace_from old new k s'
      | O =>
          if starts_with old s
          then new ++ replace_from old new (length old - 1) s'
          else c :: replace_from old new 0 s'
      end
  end.

(** [s.replace(old, new)]: replacement of a literal text. *)
Definition literal_replace (old new : string) (s : string) : string :=
  to_string (replace_from (of_string old) (of_string new) 0 (of_string s)).

(** The smallest int64. *)
Definition int64_min : Z := (- 2 ^ 63)%Z.

(** [abs] of numpy on an int64: the absolute value, except that the
    smallest int64 has none and comes back as it is.  (On a uint64 cell
    [abs] changes nothing, which is the same function there.) *)
Definition int64_abs (z : Z) : Z :=
  if (z =? int64_min)%Z then z else Z.abs z.

(** One cell of [.abs()]. *)
Definition abs_cell (v : value) : value :=
  match v with
  | VInt z => VInt (int64_abs z)
  | VNum x => VNum (num_abs x)
  | _ => v
  end.

(** One cell of [== 0]. *)
Definition cell_is_zero (v : value) : bool :=
  match v with
  | VInt z => (z =? 0)%Z
  | VNum x => num_is_zero x
  | _ => false
  end.

(** One cell of [> 0]. *)
Definition cell_gt0 (v : value) : bool :=
  match v with
  | VInt z => (0 <? z)%Z
  | VNum x => num_gt0 x
  | _ => false
  end.

(** One cell of [.fillna(0)]. *)
Definition fill_zero (v : value) : value :=
  match v with VNull => VNum zero | _ => v end.

(** [.fillna(0)] on one cell of a float column. *)
Definition fillna0 (x : option num) : num :=
  match x with Some a => a | None => zero end.

(** [.fillna(other)] *)
Definition fillna (x : option num) (other : num) : num :=
  match x with Some a => a | None => other end.

(** [.replace(0, np.nan)] *)
Definition zero_to_nan (x : num) : option num :=
  if num_is_zero x then None else Some x.

Definition Debit : string := "Debit".
Definition Credit : string := "Credit".

Section WithEnv.

Variable E : Env.

(** The text that line 209 hands to [pd.to_numeric]. *)
Definition cleaned (cell : value) : string :=
  str_replace E "Rs." "" (str_replace E "INR" "" (str_replace E "," "" (str E cell))).

(** The text that lines 212-213 hand to [pd.to_numeric]. *)
Definition uncomma (cell : value) : string :=
  str_replace E "," "" (str E cell).

(** An integer cell as a cell of a float64 column. *)
Definition to_float_cell (v : value) : value :=
  match v with VInt z => VNum (float_of_int E z) | _ => v end.

(** The rest of this section reads one row as lines 208-226 do when
    [pd.to_numeric] gives float64 columns; the columns themselves,
    integer ones included, are in [Frame.with_amount]. *)

(** Line 209, one cell of the amount column. *)
Definition parse_amount (cell : value) : num :=
  fillna0 (to_numeric E (cleaned cell)).

(** Lines 212-213, one cell of the debit or credit column. *)
Definition parse_side (cell : value) : num :=
  fillna0 (to_numeric E (uncomma cell)).

(** Lines 214-217: debit and credit columns resolved. *)
Definition reconcile_split (debit credit : value) : num * string :=
  let d := parse_side debit in
  let c := parse_side credit in
  let amount := fillna (zero_to_nan c) d in
  (fillna0 (Some (num_abs amount)),
   if num_gt0 c then Credit else Debit).

(** Lines 220-222: an amount column alone.  [cell] is the cell of the
    working frame that line 209 parsed, [raw_cell] the cell of the
    untouched input that the sign heuristic reads. *)
Definition reconcile_single_cells (cell raw_cell : value) : num * string :=
  (num_abs (parse_amount cell),
   if contains_char "-"%char (of_string (str E raw_cell)) then Debit else Credit).

Definition reconcile_single (cell : value) : num * string :=
  reconcile_single_cells cell cell.

(** Lines 225-226: no amount column. *)
Definition reconcile_none : num * string := (zero, Debit).

(** The three paths of lines 208-226 on one row; [amount], [debit] and
    [credit] are the cells of the columns that resolved. *)
Definition reconcile (amount debit credit : option value) : num * string :=
  match amount with
  | Some a =>
      match debit, credit with
      | Some d, Some c => reconcile_split d c
      | _, _ => reconcile_single a
      end
  | None => reconcile_none
  end.

End WithEnv.

End Amounts.

(* ================================================================= *)
(** ** The frame and the script body (lines 157-260) *)

Module Frame.

Import Py Re Values Dates Amounts Merchant.

Definition is_object (d : dtype) : bool :=
  match d with DObject => true | _ => false end.

(** Columns in their order; [nrows] is the length of the index. *)
Record DataFrame : Type :=
  mkFrame { nrows : nat; columns : list (string * Series) }.

(** [df.columns] *)
Definition names (df : DataFrame) : list string := map fst (columns df).

(** [c in df.columns] *)
Definition has_col (df : DataFrame) (c : string) : bool :=
  existsb (String.eqb c) (names df).

Fixpoint lookup (cols : list (string * Series)) (c : string) : option Series :=
  match cols with
  | [] => None
  | (n, s) :: rest => if String.eqb n c then Some s else lookup rest c
  end.

(** [df[c]].  The script only reads columns it found in [df.columns]
    or wrote itself; a missing one (a KeyError) reads as empty. *)
Definition get (df : DataFrame) (c : string) : Series :=
  match lookup (columns df) c with
  | Some s => s
  | None => mkSeries DObject []
  end.

Fixpoint set_col (cols : list (string * Series)) (c : string) (s : Series)
  : list (string * Series) :=
  match cols with
  | [] => [(c, s)]
  | (n, x) :: rest =>
      if String.eqb n c then (n, s) :: rest else (n, x) :: set_col rest c s
  end.

(** [df[c] = series]: in place when the column exists, else appended. *)
Definition assign (df : DataFrame) (c : string) (s : Series) : DataFrame :=
  mkFrame (nrows df) (set_col (columns df) c s).

(** [df[c] = scalar] *)
Definition assign_scalar (df : DataFrame) (c : string) (d : dtype) (v : value)
  : DataFrame :=
  assign df c (mkSeries d (repeat v (nrows df))).

(** [series.apply(f)] with the dtype that results. *)
Definition apply (d : dtype) (f : value -> value) (s : Series) : Series :=
  mkSeries d (map f (cells s)).

(** A column name other than "Date". *)
Definition not_date (c : string) : bool := negb (String.eqb c "Date").

(** Every column has one cell per row of the index. *)
Definition well_formed (df : DataFrame) : bool :=
  forallb (fun col => length (cells (snd col)) =? nrows df) (columns df).

(** A cell that holds a number. *)
Definition is_number (v : value) : bool :=
  match v with VNum _ | VInt _ => true | _ => false end.

(** A cell of a numeric column: a number or NaN. *)
Definition numeric (v : value) : bool := is_number v || isna v.

Definition is_float (d : dtype) : bool :=
  match d with DFloat => true | _ => false end.

(** A cell that holds a number that is not negative. *)
Definition amount_ok (v : value) : bool :=
  match v with
  | VNum x => num_nonneg x
  | VInt z => (0 <=? z)%Z
  | _ => false
  end.

(** An amount that is not negative, or the smallest int64. *)
Definition amount_or_min (v : value) : Prop :=
  amount_ok v = true \/ v = VInt Amounts.int64_min.

(** *** Column classification (lines 160-184) *)

Definition found (p : regex) (c : string) : bool :=
  is_some (re_search p (of_string c)).

Definition pat_date_col : regex :=
  alts [lit "date"; lit "txn date"; lit "value date"].
Definition pat_narration_col : regex :=
  alts [lit "narration"; lit "description"; lit "remarks";
        lit "particulars"; lit "details"].
Definition pat_amount_col : regex := alts [lit "amount"; lit "amt"].
Definition pat_debit_col : regex := alts [lit "debit"; lit "withdraw"].
Definition pat_credit_col : regex := alts [lit "credit"; lit "deposit"].

(** [for c in cols: if re.search(p, c): x = c; break] *)
Fixpoint first_found (p : regex) (cols : list string) : option string :=
  match cols with
  | [] => None
  | c :: rest => if found p c then Some c else first_found p rest
  end.

Definition is_none {A : Type} (o : option A) : bool := negb (is_some o).

(** One round of the loop of lines 178-184 on one role. *)
Definition keep_first (p : regex) (c : string) (x : option string)
  : option string :=
  if found p c && is_none x then Some c else x.

Record Roles : Type := mkRoles {
  date_col : option string;
  narration_col : option string;
  amount_col : option string;
  debit_col : option string;
  credit_col : option string
}.

Definition amount_roles (cols : list string)
  : option string * option string * option string :=
  fold_left
    (fun '(a, d, c) col =>
       (keep_first pat_amount_col col a,
        keep_first pat_debit_col col d,
        keep_first pat_credit_col col c))
    cols (None, None, None).

Definition classify (cols : list string) : Roles :=
  let '(a, d, c) := amount_roles cols in
  mkRoles (first_found pat_date_col cols)
          (first_found pat_narration_col cols)
          a d c.

(** A role that resolved is a column of the input whose name matches
    the pattern of the role. *)
Definition role_ok (p : regex) (cols : list string) (x : option string) : Prop :=
  forall y, x = Some y -> In y cols /\ found p y = true.

(** [writes W df df']: [df'] is [df] after assignments to columns
    named in [W]. *)
Inductive writes (W : list string) (df : DataFrame) : DataFrame -> Prop :=
| writes_none : writes W df df
| writes_assign df' c s :
    writes W df df' -> existsb (String.eqb c) W = true ->
    writes W df (assign df' c s).

(** [x] is the first of [cols] whose name matches [p], or [None] when
    no name does. *)
Definition first_match (p : regex) (cols : list string) (x : option string) : Prop :=
  match x with
  | Some c =>
      exists pre post,
        cols = pre ++ c :: post /\ found p c = true
        /\ Forall (fun y => found p y = false) pre
  | None => Forall (fun y => found p y = false) cols
  end.

(** A cell of the Type column. *)
Definition is_type (v : value) : Prop :=
  v = VStr Amounts.Debit \/ v = VStr Amounts.Credit.

(** [if x:] for [x] a column name or [None]. *)
Definition truthy (x : option string) : option string :=
  match x with
  | Some s => if String.eqb s "" then None else Some s
  | None => None
  end.

(** *** Date column (lines 189-194) *)

Section WithEnv.

Variable E : Env.

(** [row.values] of row [i]. *)
Definition row_values (df : DataFrame) (i : nat) : list value :=
  map (fun col => nth i (cells (snd col)) VNull) (columns df).

(** [" ".join(map(str, row.values))] *)
Definition row_text (df : DataFrame) (i : nat) : string :=
  String.concat " " (map (str E) (row_values df i)).

(** The column gets the dtype that pandas infers from the cells; it
    is written here as the datetime dtype, which it is on every run
    that gets past line 233 (see [date_display_line]). *)
Definition with_date (r : Roles) (df : DataFrame) : DataFrame :=
  match truthy (date_col r) with
  | Some c => assign df "Date" (apply DDatetime (date_cell E) (get df c))
  | None =>
      let parsed :=
        map (fun i => date_cell E (VStr (row_text df i))) (seq 0 (nrows df)) in
      assign df "Date" (mkSeries DDatetime parsed)
  end.

(** *** Merchant column (lines 197-205) *)

(** [extract_merchant] on a cell. *)
Definition merchant_cell (v : value) : value :=
  VStr (extract_merchant (if isna v then None else Some (str E v))).

(** [[c for c in df.columns if df[c].dtype == object]] *)
Definition text_cols (df : DataFrame) : list string :=
  filter (fun c => is_object (dtype_of (get df c))) (names df).

Definition with_merchant (r : Roles) (df : DataFrame) : DataFrame :=
  match truthy (narration_col r) with
  | Some c => assign df "Merchant" (apply DObject merchant_cell (get df c))
  | None =>
      match text_cols df with
      | c :: _ => assign df "Merchant" (apply DObject merchant_cell (get df c))
      | [] => assign_scalar df "Merchant" DObject (VStr "")
      end
  end.

(** *** Amount and Type columns (lines 208-226) *)

(** A cell of a float column; NaN is [None]. *)
Definition of_float (x : option num) : value :=
  match x with Some a => VNum a | None => VNull end.

(** [series.astype(str)] *)
Definition texts (s : Series) : list string := map (str E) (cells s).

(** [pd.to_numeric(col, errors='coerce')] on a column of texts: an
    integer column when the library finds one, a float64 column
    otherwise. *)
Definition to_numeric_series (col : list string) : Series :=
  if int_column E col
  then mkSeries DInt (map (fun s => VInt (to_int E s)) col)
  else mkSeries DFloat (map (fun s => of_float (to_numeric E s)) col).

(** [series.fillna(0)] *)
Definition fillna_zero (s : Series) : Series :=
  mkSeries (dtype_of s) (map fill_zero (cells s)).

(** The right-hand side of line 209 for the amount column [s]. *)
Definition parsed_amount (s : Series) : Series :=
  fillna_zero (to_numeric_series (map (cleaned E) (cells s))).

(** The right-hand side of lines 212 and 213 for the debit or credit
    column [s]. *)
Definition parsed_side (s : Series) : Series :=
  fillna_zero (to_numeric_series (map (uncomma E) (cells s))).

(** [series.replace(0, np.nan)]: a column without a zero is left as it
    is; otherwise the zeros become NaN and the column float64. *)
Definition zero_to_nan_series (s : Series) : Series :=
  if existsb cell_is_zero (cells s)
  then mkSeries DFloat
         (map (fun v => if cell_is_zero v then VNull else to_float_cell E v)
              (cells s))
  else s.

(** [a.fillna(b)], by position: an integer column has nothing to fill;
    in a float64 column a NaN takes the cell of [b] as a float64. *)
Definition fillna_series (a b : Series) : Series :=
  match dtype_of a with
  | DFloat =>
      mkSeries DFloat
        (map (fun '(x, y) => match x with VNull => to_float_cell E y | _ => x end)
             (combine (cells a) (cells b)))
  | _ => a
  end.

(** [series.abs()] *)
Definition abs_series (s : Series) : Series :=
  mkSeries (dtype_of s) (map abs_cell (cells s)).

(** [np.where(series > 0, "Credit", "Debit")] *)
Definition type_of_credit (s : Series) : Series :=
  mkSeries DObject
    (map (fun v => if cell_gt0 v then VStr Credit else VStr Debit) (cells s)).

(** [np.where(col.str.contains(r"-"), "Debit", "Credit")] *)
Definition type_of_sign (col : list string) : Series :=
  mkSeries DObject
    (map (fun s => if contains_char "-"%char (of_string s)
                   then VStr Debit else VStr Credit)
         col).

Definition with_amount (r : Roles) (raw df : DataFrame) : DataFrame :=
  match truthy (amount_col r) with
  | Some a =>
      let df := assign df "Amount" (parsed_amount (get df a)) in
      match truthy (debit_col r), truthy (credit_col r) with
      | Some d, Some c =>
          let df := assign df "Debit" (parsed_side (get df d)) in
          let df := assign df "Credit" (parsed_side (get df c)) in
          let df := assign df "Amount"
                      (fillna_series (zero_to_nan_series (get df "Credit"))
                                     (get df "Debit")) in
          (* ensure positive *)
          let df := assign df "Amount"
                      (fillna_zero (abs_series (get df "Amount"))) in
          assign df "Type" (type_of_credit (get df "Credit"))
      | _, _ =>
          let example_col := texts (get raw a) in
          let df := assign df "Type" (type_of_sign example_col) in
          assign df "Amount" (abs_series (get df "Amount"))
      end
  | None =>
      (* the scalar 0, written as the number [zero] *)
      let df := assign_scalar df "Amount" DInt (VNum zero) in
      assign_scalar df "Type" DObject (VStr Debit)
  end.

(** *** Category, display date, filters and display columns (229-260) *)

Definition with_category (df : DataFrame) : DataFrame :=
  if negb (has_col df "Category")
  then assign_scalar df "Category" DObject (VStr "")
  else df.

(** One cell of [.dt.date]. *)
Definition dt_date_cell (v : value) : value :=
  match v with VTime t => VDate (dt_date t) | _ => VNull end.

Definition with_date_display (df : DataFrame) : DataFrame :=
  assign df "Date_display" (apply DObject dt_date_cell (get df "Date")).

Fixpoint select {A : Type} (mask : list bool) (l : list A) : list A :=
  match mask, l with
  | b :: mask', x :: l' => if b then x :: select mask' l' else select mask' l'
  | _, _ => []
  end.

(** [df[mask]] *)
Definition filter_rows (mask : list bool) (df : DataFrame) : DataFrame :=
  mkFrame (length (filter (fun b => b) (firstn (nrows df) mask)))
          (map (fun '(n, s) => (n, mkSeries (dtype_of s) (select mask (cells s))))
               (columns df)).

(** The sidebar inputs that the script reads. *)
Record Sidebar : Type := mkSidebar {
  date_min : option date;
  date_max : option date;
  global_search : string
}.

Definition no_filter : Sidebar := mkSidebar None None "".

Definition date_display_cells (df : DataFrame) : list value :=
  map dt_date_cell (cells (get df "Date")).

Definition filter_min (sb : Sidebar) (working : DataFrame) : DataFrame :=
  match date_min sb with
  | Some d => filter_rows (map (fun v => date_ge E v d) (date_display_cells working)) working
  | None => working
  end.

Definition filter_max (sb : Sidebar) (working : DataFrame) : DataFrame :=
  match date_max sb with
  | Some d => filter_rows (map (fun v => date_le E v d) (date_display_cells working)) working
  | None => working
  end.

Definition cell_at (df : DataFrame) (c : string) (i : nat) : value :=
  nth i (cells (get df c)) VNull.

Definition filter_search (sb : Sidebar) (working : DataFrame) : DataFrame :=
  if String.eqb (global_search sb) "" then working
  else
    filter_rows
      (map (fun i => search_hit E (global_search sb)
                       (cell_at working "Merchant" i)
                       (cell_at working "Category" i)
                       (cell_at working "Amount" i)
                       (cell_at working "Date_display" i))
           (seq 0 (nrows working)))
      working.

Definition display_cols : list string :=
  ["Date_display"; "Merchant"; "Amount"; "Type"; "Category"].

(** Lines 256-258. *)
Definition ensure_cols (working : DataFrame) : DataFrame :=
  fold_left
    (fun w c => if negb (has_col w c) then assign_scalar w c DObject (VStr "") else w)
    display_cols working.

(** [working[display_cols].rename(columns={"Date_display": "Date"})] *)
Definition display (working : DataFrame) : DataFrame :=
  mkFrame (nrows working)
    (map (fun c => (if String.eqb c "Date_display" then "Date" else c,
                    get working c))
         display_cols).

(** The frame [df] after line 233. *)
Definition ingest (raw : DataFrame) : DataFrame :=
  let r := classify (names raw) in
  let df := raw in
  let df := with_date r df in
  let df := with_merchant r df in
  let df := with_amount r raw df in
  let df := with_category df in
  with_date_display df.

(** [display_df] as built from the uploaded frame [raw]. *)
Definition normalize (sb : Sidebar) (raw : DataFrame) : DataFrame :=
  let working := ingest raw in
  let working := filter_min sb working in
  let working := filter_max sb working in
  let working := filter_search sb working in
  display (ensure_cols working).

(** The frames between the steps of [ingest]. *)
Definition after_date (raw : DataFrame) : DataFrame :=
  with_date (classify (names raw)) raw.
Definition after_merchant (raw : DataFrame) : DataFrame :=
  with_merchant (classify (names raw)) (after_date raw).
Definition after_amount (raw : DataFrame) : DataFrame :=
  with_amount (classify (names raw)) raw (after_merchant raw).

(** The three filters of lines 238-252 in a row. *)
Definition filtered (sb : Sidebar) (w : DataFrame) : DataFrame :=
  filter_search sb (filter_max sb (filter_min sb w)).

(** *** The same lines with their exceptions

    [ingest] and [normalize] above say what the lines compute.  Two of
    them can raise instead, and nothing in the script catches that. *)

(** Line 233. *)
Definition date_display_line (df : DataFrame) : outcome DataFrame :=
  if dt_ok E (get df "Date") then Returns (with_date_display df) else Raises.

(** Lines 244-252. *)
Definition search_lines (sb : Sidebar) (working : DataFrame) : outcome DataFrame :=
  if String.eqb (global_search sb) "" then Returns working
  else if search_ok E (global_search sb)
            (get working "Merchant") (get working "Category")
            (get working "Amount") (get working "Date_display")
       then Returns (filter_search sb working)
       else Raises.

(** Lines 157-260: [display_df], or the exception that ends the run. *)
Definition display_frame (sb : Sidebar) (raw : DataFrame) : outcome DataFrame :=
  and_then (date_display_line (with_category (after_amount raw))) (fun df =>
  let working := df in
  let working := filter_min sb working in
  let working := filter_max sb working in
  and_then (search_lines sb working) (fun working =>
  Returns (display (ensure_cols working)))).


End WithEnv.

End Frame.

(* ================================================================= *)
(** ** [read_uploaded_file] (lines 35-53) and its caller (145-152) *)

Module Upload.

Import Py Values Frame.

(** A call that returns, or raises an exception whose text is [msg]. *)
Inductive attempt (A : Type) : Type :=
| Done (a : A)
| Failed (msg : string).

Arguments Done {A}.
Arguments Failed {A}.

(** The pandas readers on the uploaded stream.  A reader consumes the
    stream, so each takes the state of the stream and leaves a new
    one. *)
Record Readers (S : Type) : Type := mkReaders {
  (** [pd.read_csv(f)] *)
  read_csv : S -> attempt DataFrame * S;
  (** [pd.read_excel(f)] *)
  read_excel : S -> attempt DataFrame * S;
  (** [pd.read_csv(f, sep=None, engine='python')] *)
  read_csv_sniff : S -> attempt DataFrame * S;
  (** [pd.read_csv(f, sep='\t')] *)
  read_csv_tab : S -> attempt DataFrame * S
}.

Arguments read_csv {S}.
Arguments read_excel {S}.
Arguments read_csv_sniff {S}.
Arguments read_csv_tab {S}.

(** [s.endswith(suffix)] *)
Definition ends_with (suffix s : string) : bool :=
  Amounts.starts_with (rev (of_string suffix)) (rev (of_string s)).

(** What a call leaves: the returned frame ([None] for Python's
    [None]), the texts given to [st.error], and the stream. *)
Record Result (S : Type) : Type := mkResult {
  frame : option DataFrame;
  errors : list string;
  stream : S
}.

Arguments mkResult {S}.
Arguments frame {S}.
Arguments errors {S}.
Arguments stream {S}.

(** The end of the outer [try]: the frame is returned, or the handler
    of line 51 reports and returns [None]. *)
Definition finish {S : Type} (r : attempt DataFrame * S) : Result S :=
  match r with
  | (Done df, f) => mkResult (Some df) [] f
  | (Failed e, f) => mkResult None [("Error reading file: " ++ e)%string] f
  end.

Definition read_uploaded_file {S : Type} (R : Readers S) (name : string) (f : S)
  : Result S :=
  if ends_with ".csv" name then finish (read_csv R f)
  else if ends_with ".xlsx" name || ends_with ".xls" name
  then finish (read_excel R f)
  else if ends_with ".txt" name then
    match read_csv_sniff R f with
    | (Done df, f') => mkResult (Some df) [] f'
    | (Failed _, f') => finish (read_csv_tab R f')
    end
  else mkResult None [("Unsupported file type: " ++ name)%string] f.

(** How a run on an upload ends. *)
Inductive run : Type :=
| Stopped (shown : list string)   (* [st.stop()], after these texts of [st.error] *)
| Crashed                         (* an exception left the script *)
| Shown (display_df : DataFrame).

(** Lines 145-260: the display frame is built only from a frame that
    was read, and only if no line on the way raises. *)
Definition load {S : Type} (R : Readers S) (E : Env) (sb : Sidebar)
           (name : string) (f : S) : run :=
  let r := read_uploaded_file R name f in
  match frame r with
  | None => Stopped (errors r)
  | Some raw =>
      match display_frame E sb raw with
      | Returns display_df => Shown display_df
      | Raises => Crashed
      end
  end.

End Upload.

(* ================================================================= *)
(** ** A sample environment

    One instance of [Env], for evaluating the definitions on concrete
    rows: plain decimal literals for [to_numeric], the shortest decimal
    text for [repr] of a number, ISO dates for the date parser. *)

Module Sample.

Import Py Values.

Definition digit_val (c : ascii) : Z := Z.of_nat (code c - 48).

(** The digits of [s] read in base ten, after [acc]. *)
Fixpoint read_digits (acc : Z) (s : text) : Z :=
  match s with
  | [] => acc
  | c :: s' => read_digits (10 * acc + digit_val c)%Z s'
  end.

Fixpoint take_digits (s : text) : text * text :=
  match s with
  | c :: s' =>
      if is_digit c then let '(d, r) := take_digits s' in (c :: d, r)
      else ([], s)
  | [] => ([], [])
  end.

Definition pow10 (n : nat) : positive := Pos.pow 10 (Pos.of_nat n).

(** An unsigned literal [ddd], [ddd.ddd], [ddd.] or [.ddd]. *)
Definition unsigned_literal (s : text) : option Q :=
  let '(ip, r) := take_digits s in
  match r with
  | [] => match ip with
          | [] => None
          | _ => Some (inject_Z (read_digits 0 ip))
          end
  | c :: r' =>
      if eqb_char c "."%char then
        let '(fp, r'') := take_digits r' in
        match r'', ip ++ fp with
        | [], _ :: _ =>
            Some (Qred (Qmake (read_digits 0 (ip ++ fp))
                              (match fp with [] => 1%positive | _ => pow10 (length fp) end)))
        | _, _ => None
        end
      else None
  end.

Definition inf_text (s : text) : bool :=
  eqb_text (map lower_char s) (of_string "inf").

Definition sample_to_numeric (s : string) : option num :=
  match strip (of_string s) with
  | c :: r =>
      if eqb_char c "-"%char then
        if inf_text r then Some NegInf
        else option_map (fun q => Fin (Qopp q)) (unsigned_literal r)
      else if eqb_char c "+"%char then
        if inf_text r then Some PosInf
        else option_map Fin (unsigned_literal r)
      else if inf_text (c :: r) then Some PosInf
      else option_map Fin (unsigned_literal (c :: r))
  | [] => None
  end.

Definition z_text (z : Z) : string := NilZero.string_of_int (Z.to_int z).

(** The digits after the point of [r / d], at most [fuel] of them. *)
Fixpoint frac_digits (fuel : nat) (r d : Z) : string :=
  match fuel with
  | O => ""
  | S fuel' =>
      if (r =? 0)%Z then ""
      else (z_text (10 * r / d) ++ frac_digits fuel' ((10 * r) mod d) d)%string
  end.

Definition q_text (q : Q) : string :=
  let n := Z.abs (Qnum q) in
  let d := Z.pos (Qden q) in
  let frac := frac_digits 17 (n mod d) d in
  ((if (Qnum q <? 0)%Z then "-" else "")
   ++ z_text (n / d) ++ "."
   ++ (if String.eqb frac "" then "0" else frac))%string.

Definition two_digits (z : Z) : string :=
  ((if (z <? 10)%Z then "0" else "") ++ z_text z)%string.

Definition date_text (d : date) : string :=
  (z_text (year d) ++ "-" ++ two_digits (month d) ++ "-" ++ two_digits (day d))%string.

Definition sample_repr (v : value) : string :=
  match v with
  | VNull => "nan"
  | VStr s => s
  | VNum (Fin q) => q_text q
  | VNum PosInf => "inf"
  | VNum NegInf => "-inf"
  | VInt z => z_text z
  | VTime t => (date_text (dt_date t) ++ " 00:00:00")%string
  | VDate d => date_text d
  end.

(** A date parser that knows [YYYY-MM-DD] and raises on anything else. *)
Definition sample_parse (s : string) : outcome datetime :=
  match of_string s with
  | [y1; y2; y3; y4; d1; m1; m2; d2; a1; a2] =>
      if forallb is_digit [y1; y2; y3; y4; m1; m2; a1; a2]
         && eqb_char d1 "-"%char && eqb_char d2 "-"%char
      then Returns (mkDatetime
                      (mkDate (read_digits 0 [y1; y2; y3; y4])
                              (read_digits 0 [m1; m2])
                              (read_digits 0 [a1; a2]))
                      0 None)
      else Raises
  | _ => Raises
  end.

Definition date_leb (a b : date) : bool :=
  ((year a <? year b)
   || ((year a =? year b)
       && ((month a <? month b) || ((month a =? month b) && (day a <=? day b)))))%Z.

Definition sample_ge (v : value) (d : date) : bool :=
  match v with VDate x => date_leb d x | _ => false end.

Definition sample_le (v : value) (d : date) : bool :=
  match v with VDate x => date_leb x d | _ => false end.

Fixpoint has_infix (p s : text) : bool :=
  Amounts.starts_with p s
  || match s with
     | [] => false
     | _ :: s' => has_infix p s'
     end.

Definition sample_hit (q : string) (merchant category amount shown : value) : bool :=
  existsb (fun v => has_infix (of_string q) (map lower_char (of_string (sample_repr v))))
          [merchant; category; amount; shown].

(** An integer literal: digits after an optional sign. *)
Definition int_literal (s : string) : option Z :=
  let digits r :=
    match r with
    | [] => None
    | _ => if forallb is_digit r then Some (read_digits 0 r) else None
    end in
  match strip (of_string s) with
  | c :: r =>
      if eqb_char c "-"%char then option_map Z.opp (digits r)
      else if eqb_char c "+"%char then digits r
      else digits (c :: r)
  | [] => None
  end.

Definition in_range (lo hi : Z) (s : string) : bool :=
  match int_literal s with
  | Some z => ((lo <=? z) && (z <? hi))%Z
  | None => false
  end.

(** Every text is an integer, and they all fit int64 or all fit
    uint64. *)
Definition sample_int_column (col : list string) : bool :=
  forallb (in_range (- 2 ^ 63) (2 ^ 63)) col || forallb (in_range 0 (2 ^ 64)) col.

Definition sample_to_int (s : string) : Z :=
  match int_literal s with Some z => z | None => 0%Z end.

(** Exact for the integers that a float64 holds, as those of the
    examples are. *)
Definition sample_float_of_int (z : Z) : num := Fin (inject_Z z).

(** Non-empty, and every cell NaT or a timestamp without time zone. *)
Definition sample_dt_ok (s : Series) : bool :=
  match cells s with
  | [] => false
  | l => forallb (fun v => match v with
                           | VNull => true
                           | VTime t => match dt_tz t with None => true | Some _ => false end
                           | _ => false
                           end) l
  end.

(** Text columns and a search text of letters, digits and blanks. *)
Definition sample_search_ok (q : string) (merchant category amount shown : Series) : bool :=
  forallb (fun c => is_alnum c || eqb_char c " "%char) (of_string q)
  && Frame.is_object (dtype_of merchant) && Frame.is_object (dtype_of category).

Definition env : Env :=
  mkEnv sample_int_column sample_to_int sample_to_numeric sample_float_of_int
        Amounts.literal_replace
        sample_repr sample_parse (fun t => Returns t)
        sample_ge sample_le sample_hit sample_dt_ok sample_search_ok.

End Sample.

(** Sample frames. *)

Module SampleFrames.

Import Values Frame.

(** Debit and credit columns and no amount column. *)
Definition two_sided : DataFrame :=
  mkFrame 2
    [("Debit"%string, mkSeries DObject [VStr "500"; VStr "0"]);
     ("Credit"%string, mkSeries DObject [VStr "0"; VStr "1500"])].

(** A text column named "Date" ahead of the column with the narration,
    whose name matches none of the narration patterns. *)
Definition dated : DataFrame :=
  mkFrame 1
    [("Date"%string, mkSeries DObject [VStr "2024-01-05"]);
     ("Info"%string, mkSeries DObject [VStr "UPI-AMAZON-x"])].

(** An upload that already has a Category column. *)
Definition categorised : DataFrame :=
  mkFrame 1
    [("Narration"%string, mkSeries DObject [VStr "UPI-AMAZON-x"]);
     ("Category"%string, mkSeries DObject [VStr "Food"])].

(** A statement with one signed amount column. *)
Definition statement : DataFrame :=
  mkFrame 2
    [("Narration"%string, mkSeries DObject [VStr "UPI-AMAZON-x"; VStr "salary june"]);
     ("Amount"%string, mkSeries DObject [VStr "-1,234.50"; VStr "2,000 INR"])].

(** A statement with a date column and amount, debit and credit
    columns. *)
Definition ledger : DataFrame :=
  mkFrame 2
    [("Txn Date"%string, mkSeries DObject [VStr "2024-01-05"; VStr "soon"]);
     ("Description"%string, mkSeries DObject [VStr "UPI-AMAZON-x"; VStr "salary june"]);
     ("Amount"%string, mkSeries DObject [VStr "500"; VStr "1500"]);
     ("Debit"%string, mkSeries DObject [VStr "500"; VStr "0"]);
     ("Credit"%string, mkSeries DObject [VStr "0"; VStr "1,500"])].

(** A statement as [pd.read_csv] gives it when the credit of a row is
    the smallest int64. *)
Definition overdrawn : DataFrame :=
  mkFrame 1
    [("Date"%string, mkSeries DObject [VStr "2024-01-05"]);
     ("Narration"%string, mkSeries DObject [VStr "UPI-AMAZON-x"]);
     ("Amount"%string, mkSeries DInt [VInt 1]);
     ("Debit"%string, mkSeries DInt [VInt 0]);
     ("Credit"%string, mkSeries DInt [VInt (-9223372036854775808)])].

(** The same amount in a statement with an amount column alone. *)
Definition overdrawn_single : DataFrame :=
  mkFrame 1
    [("Date"%string, mkSeries DObject [VStr "2024-01-05"]);
     ("Narration"%string, mkSeries DObject [VStr "UPI-AMAZON-x"]);
     ("Amount"%string, mkSeries DInt [VInt (-9223372036854775808)])].

(** A statement with a negative credit. *)
Definition negative_credit : DataFrame :=
  mkFrame 1
    [("Date"%string, mkSeries DObject [VStr "2024-01-05"]);
     ("Narration"%string, mkSeries DObject [VStr "UPI-AMAZON-x"]);
     ("Amount"%string, mkSeries DInt [VInt 8]);
     ("Debit"%string, mkSeries DInt [VInt 3]);
     ("Credit"%string, mkSeries DInt [VInt (-5)])].


(** A dated upload that already has a Category column. *)
Definition labelled : DataFrame :=
  mkFrame 1
    [("Date"%string, mkSeries DObject [VStr "2024-01-05"]);
     ("Narration"%string, mkSeries DObject [VStr "UPI-AMAZON-x"]);
     ("Category"%string, mkSeries DObject [VStr "Food"])].

(** A statement with amounts in rupees and paise. *)
Definition ledger_paise : DataFrame :=
  mkFrame 2
    [("Txn Date"%string, mkSeries DObject [VStr "2024-01-05"; VStr "2024-01-06"]);
     ("Description"%string, mkSeries DObject [VStr "UPI-AMAZON-x"; VStr "salary june"]);
     ("Amount"%string, mkSeries DObject [VStr "500.50"; VStr "1,500.25"]);
     ("Debit"%string, mkSeries DObject [VStr "500.50"; VStr "0.00"]);
     ("Credit"%string, mkSeries DObject [VStr "0.00"; VStr "1,500.25"])].

(** An upload that has a header and no rows. *)
Definition header_only : DataFrame :=
  mkFrame 0
    [("Date"%string, mkSeries DObject []);
     ("Narration"%string, mkSeries DObject []);
     ("Amount"%string, mkSeries DObject [])].

End SampleFrames.

(* ================================================================= *)
(** * Properties *)

(** ** Text *)

Module PyFacts.

Import Py.

Lemma to_string_length (s : text) : String.length (to_string s) = length s.
Proof.
  induction s as [|c s IH]; simpl; [reflexivity | now rewrite IH].
Qed.

Lemma of_to_string (s : text) : of_string (to_string s) = s.
Proof. apply list_ascii_of_string_of_list_ascii. Qed.

Lemma to_of_string (s : string) : to_string (of_string s) = s.
Proof. apply string_of_list_ascii_of_string. Qed.

Lemma to_string_nil (s : text) : to_string s = ""%string <-> s = [].
Proof.
  split; intros H.
  - destruct s; [reflexivity | discriminate].
  - now subst.
Qed.

Lemma eqb_char_eq (a b : ascii) : eqb_char a b = true <-> a = b.
Proof. apply Ascii.eqb_eq. Qed.

Lemma eqb_text_eq (a b : text) : eqb_text a b = true <-> a = b.
Proof.
  revert b; induction a as [|x a IH]; intros [|y b]; simpl;
    try (split; [discriminate | discriminate]); try tauto.
  rewrite andb_true_iff, eqb_char_eq, IH.
  split; [intros [-> ->]; reflexivity | intros H; injection H; auto].
Qed.

Lemma slice_to_length (n : nat) (s : text) : length (slice_to n s) <= n.
Proof. unfold slice_to. rewrite length_firstn. lia. Qed.

Lemma slice_to_long (n : nat) (s : text) :
  length (slice_to n s) = Nat.min n (length s).
Proof. unfold slice_to. apply length_firstn. Qed.

Lemma slice_to_nil (n : nat) (s : text) :
  0 < n -> (slice_to n s = [] <-> s = []).
Proof.
  intros Hn. destruct n as [|n]; [lia|].
  destruct s; simpl; split; intros H; try reflexivity; discriminate.
Qed.

Lemma lstrip_clean (s : text) :
  forallb (fun c => negb (is_space c)) s = true -> lstrip s = s.
Proof.
  destruct s as [|c s]; simpl; [reflexivity|].
  rewrite andb_true_iff, negb_true_iff. now intros [-> _].
Qed.

Lemma strip_clean (s : text) :
  forallb (fun c => negb (is_space c)) s = true -> strip s = s.
Proof.
  intros H. unfold strip, rstrip.
  rewrite (lstrip_clean s H), lstrip_clean.
  - apply rev_involutive.
  - rewrite forallb_forall in *. intros c Hc. apply H. now apply in_rev.
Qed.

End PyFacts.

(** ** The matcher is sound for a declarative reading of patterns *)

Module ReFacts.

Import Py Re.

Create HintDb re.
#[local] Hint Constructors star step : re.

Lemma orelse_some {A : Type} (a b : option A) (v : A) :
  orelse a b = Some v -> a = Some v \/ b = Some v.
Proof. destruct a; simpl; auto. Qed.

Lemma star_greedy_sound {A : Type} p s (k : text -> option A) v :
  star_greedy p s k = Some v -> exists s', star p s s' /\ k s' = Some v.
Proof.
  induction s as [|c s IH]; simpl; intros H.
  - exists []; auto with re.
  - destruct (p c) eqn:Hp.
    + apply orelse_some in H as [H | H].
      * destruct (IH H) as (s' & Hs & Hk). exists s'; eauto with re.
      * exists (c :: s); auto with re.
    + exists (c :: s); auto with re.
Qed.

Lemma star_lazy_sound {A : Type} p s (k : text -> option A) v :
  star_lazy p s k = Some v -> exists s', star p s s' /\ k s' = Some v.
Proof.
  induction s as [|c s IH]; simpl; intros H.
  - apply orelse_some in H as [H | H]; [|discriminate].
    exists []; auto with re.
  - apply orelse_some in H as [H | H].
    + exists (c :: s); auto with re.
    + destruct (p c) eqn:Hp; [|discriminate].
      destruct (IH H) as (s' & Hs & Hk). exists s'; eauto with re.
Qed.

Lemma run_sound {A : Type} n0 r :
  forall s g (k : text -> option text -> option A) v,
    run n0 r s g k = Some v ->
    exists s' g', step n0 r s g s' g' /\ k s' g' = Some v.
Proof.
  induction r as [p| |r1 IH1 r2 IH2|r1 IH1 r2 IH2|p|p|r IH| |];
    intros s g k v H; simpl in H.
  - destruct s as [|c s]; [discriminate|].
    destruct (p c) eqn:Hp; [|discriminate]. eauto with re.
  - eauto with re.
  - apply IH1 in H as (s1 & g1 & H1 & H).
    apply IH2 in H as (s2 & g2 & H2 & H). eauto with re.
  - apply orelse_some in H as [H | H].
    + apply IH1 in H as (s' & g' & H1 & H). eauto with re.
    + apply IH2 in H as (s' & g' & H2 & H). eauto with re.
  - apply star_greedy_sound in H as (s' & Hs & H). eauto with re.
  - apply star_lazy_sound in H as (s' & Hs & H). eauto with re.
  - apply IH in H as (s' & g' & H1 & H). eauto with re.
  - destruct s as [|c [|c' s]]; try discriminate; [eauto with re|].
    destruct (code c =? 10) eqn:Hc; [|discriminate].
    apply Nat.eqb_eq in Hc. eauto with re.
  - destruct (length s =? n0) eqn:Hn; [|discriminate].
    apply Nat.eqb_eq in Hn. eauto with re.
Qed.

(** A successful [re.search] is a declarative match at some position. *)
Lemma search_from_sound n0 r s m :
  search_from n0 r s = Some m ->
  exists pre s0, s = pre ++ s0 /\ step n0 r s0 None (m_rest m) (m_group m).
Proof.
  induction s as [|c s IH]; simpl; intros H.
  - apply orelse_some in H as [H | H]; [|discriminate].
    apply run_sound in H as (s' & g' & Hs & Hk).
    injection Hk as <-. exists [], []. auto.
  - apply orelse_some in H as [H | H].
    + apply run_sound in H as (s' & g' & Hs & Hk).
      injection Hk as <-. exists [], (c :: s). auto.
    + destruct (IH H) as (pre & s0 & -> & Hs).
      exists (c :: pre), s0. auto.
Qed.

Lemma re_search_sound r s m :
  re_search r s = Some m ->
  exists pre s0, s = pre ++ s0 /\ step (length s) r s0 None (m_rest m) (m_group m).
Proof. apply search_from_sound. Qed.

(** What a pattern consumes is a prefix of the remaining input. *)
Lemma star_prefix p s s' :
  star p s s' -> exists pre, s = pre ++ s' /\ forallb p pre = true.
Proof.
  induction 1 as [s | c s s' Hp _ (pre & -> & Hpre)].
  - exists []; auto.
  - exists (c :: pre); simpl. now rewrite Hp, Hpre.
Qed.

Lemma step_prefix n0 r s g s' g' :
  step n0 r s g s' g' -> exists pre, s = pre ++ s'.
Proof.
  induction 1;
    try (exists []; reflexivity);
    try (match goal with H : star _ _ _ |- _ =>
           apply star_prefix in H as (pre & -> & _); exists pre; reflexivity end);
    auto.
  - exists [c]; reflexivity.
  - destruct IHstep1 as (p1 & ->), IHstep2 as (p2 & ->).
    exists (p1 ++ p2). now rewrite app_assoc.
Qed.

Lemma firstn_consumed (pre s' : text) :
  firstn (length (pre ++ s') - length s') (pre ++ s') = pre.
Proof.
  rewrite length_app, Nat.add_sub.
  rewrite firstn_app, Nat.sub_diag, firstn_all. simpl. apply app_nil_r.
Qed.

End ReFacts.

(** ** The capturing group of the patterns of the source *)

Module GroupFacts.

Import Py Re ReFacts PyFacts Merchant.

Lemma step_keeps_group n0 r s g s' g' :
  step n0 r s g s' g' -> is_some g = true -> is_some g' = true.
Proof. induction 1; auto. Qed.

Lemma step_sets_group n0 r s g s' g' :
  step n0 r s g s' g' -> sets_group r = true -> is_some g' = true.
Proof.
  induction 1; simpl; intros Hr; try discriminate; auto.
  - apply orb_true_iff in Hr as [Hr | Hr]; [|auto].
    eapply step_keeps_group; eauto.
  - apply andb_true_iff in Hr as [Hr _]; auto.
  - apply andb_true_iff in Hr as [_ Hr]; auto.
Qed.

(** [m.group(1)] is never [None] after a successful search with a
    pattern that sets its group on every path. *)
Lemma group1_defined r s m :
  sets_group r = true -> re_search r s = Some m ->
  m_group m = Some (group1 m).
Proof.
  intros Hr H. apply re_search_sound in H as (pre & s0 & _ & H).
  apply step_sets_group in H; [|assumption].
  unfold group1. destruct (m_group m); [reflexivity | discriminate].
Qed.

Lemma source_patterns_set_group :
  Forall (fun r => sets_group r = true)
         [pat_upi; pat_rev; pat_ft; pat_atupi; pat_to; pat_from].
Proof. repeat constructor. Qed.

Ltac inv H := inversion H; subst; clear H.

(** The text captured by [([p]+)]. *)
Lemma step_group_plus n0 p s g s' g' :
  step n0 (Group (Plus p)) s g s' g' ->
  exists t, g' = Some t /\ t <> [] /\ forallb p t = true.
Proof.
  intros H. inv H.
  match goal with H : step _ (Plus _) _ _ _ _ |- _ => inv H end.
  match goal with H : step _ (Chr _) _ _ _ _ |- _ => inv H end.
  match goal with H : step _ (Star _) _ _ _ _ |- _ => inv H end.
  match goal with H : star _ _ _ |- _ =>
    apply star_prefix in H as (pre & -> & Hpre) end.
  exists (c :: pre). split; [|split].
  - f_equal. apply (firstn_consumed (c :: pre)).
  - discriminate.
  - simpl. now rewrite Hpre, andb_true_r.
Qed.

(** The text captured by [([p]{3,})]. *)
Lemma step_group_atleast3 n0 p s g s' g' :
  step n0 (Group (AtLeast3 p)) s g s' g' ->
  exists t, g' = Some t /\ 3 <= length t /\ forallb p t = true.
Proof.
  intros H. inv H.
  repeat match goal with
         | H : step _ (AtLeast3 _) _ _ _ _ |- _ => inv H
         | H : step _ (Seq _ _) _ _ _ _ |- _ => inv H
         | H : step _ (Chr _) _ _ _ _ |- _ => inv H
         | H : step _ (Star _) _ _ _ _ |- _ => inv H
         end.
  match goal with H : star _ _ _ |- _ =>
    apply star_prefix in H as (pre & -> & Hpre) end.
  match goal with |- context [firstn _ (?a :: ?b :: ?c :: pre ++ s')] =>
    exists (a :: b :: c :: pre) end.
  split; [|split].
  - f_equal.
    match goal with |- context [firstn _ (?a :: ?b :: ?c :: pre ++ s')] =>
      apply (firstn_consumed (a :: b :: c :: pre)) end.
  - simpl. lia.
  - simpl. repeat match goal with H : p _ = true |- _ => rewrite H; clear H end.
    now rewrite Hpre.
Qed.

(** The tail of a sequence decides the group when it is a group. *)
Lemma step_seq_inv n0 r1 r2 s g s2 g2 :
  step n0 (Seq r1 r2) s g s2 g2 ->
  exists s1 g1, step n0 r1 s g s1 g1 /\ step n0 r2 s1 g1 s2 g2.
Proof. intros H. inv H. eauto. Qed.

Lemma handle_char_not_space c : handle_char c = true -> is_space c = false.
Proof.
  destruct c as [[] [] [] [] [] [] [] []]; vm_compute; congruence.
Qed.

(** Rule 4 captures a non-empty token without whitespace. *)
Lemma search_atupi_group s m :
  re_search pat_atupi s = Some m ->
  group1 m <> [] /\ forallb handle_char (group1 m) = true.
Proof.
  intros H. apply re_search_sound in H as (pre & s0 & _ & H).
  unfold pat_atupi, seqs in H.
  apply step_seq_inv in H as (s1 & g1 & _ & H).
  apply step_seq_inv in H as (s2 & g2 & _ & H).
  apply step_group_plus in H as (t & Hg & Ht & Hp).
  unfold group1. rewrite Hg. auto.
Qed.

(** Rules 5 and 6 capture at least three characters of their class. *)
Lemma search_to_group s m :
  re_search pat_to s = Some m \/ re_search pat_from s = Some m ->
  3 <= length (group1 m) /\ forallb name_char (group1 m) = true.
Proof.
  intros [H | H]; apply re_search_sound in H as (pre & s0 & _ & H);
    unfold pat_to, pat_from, seqs in H;
    apply step_seq_inv in H as (s1 & g1 & _ & H);
    apply step_seq_inv in H as (s2 & g2 & _ & H);
    apply step_seq_inv in H as (s3 & g3 & _ & H);
    apply step_group_atleast3 in H as (t & Hg & Ht & Hp);
    unfold group1; rewrite Hg; auto.
Qed.

End GroupFacts.

(** ** The merchant extractor *)

Module MerchantFacts.

Import Py Re ReFacts PyFacts GroupFacts Merchant.

Lemma accept_name_spec (m : text) :
  accept_name m = true <-> upper m <> UPI /\ 2 < length m.
Proof.
  unfold accept_name.
  rewrite andb_true_iff, negb_true_iff, Nat.ltb_lt.
  split; intros [H1 H2]; split; auto.
  - intros Heq. apply eqb_text_eq in Heq. congruence.
  - destruct (eqb_text (upper m) UPI) eqn:Heq; [|reflexivity].
    apply eqb_text_eq in Heq. contradiction.
Qed.

Lemma rule_upi_some s r :
  rule_upi s = Some r -> upper r <> UPI /\ 2 < length r.
Proof.
  unfold rule_upi. destruct (re_search pat_upi s) as [m|]; [|discriminate].
  destruct (accept_name _) eqn:Ha; [|discriminate].
  intros H; injection H as <-. now apply accept_name_spec.
Qed.

Lemma rule_rev_some s r :
  rule_rev s = Some r -> upper r <> UPI /\ 2 < length r.
Proof.
  unfold rule_rev. destruct (re_search pat_rev s) as [m|]; [|discriminate].
  destruct (accept_name _) eqn:Ha; [|discriminate].
  intros H; injection H as <-. now apply accept_name_spec.
Qed.

Lemma rule_ft_some s r : rule_ft s = Some r -> 2 < length r.
Proof.
  unfold rule_ft. destruct (re_search pat_ft s) as [m|]; [|discriminate].
  destruct (2 <? length _) eqn:Hl; [|discriminate].
  intros H; injection H as <-. now apply Nat.ltb_lt.
Qed.

Lemma rule_atupi_some s r :
  rule_atupi s = Some r -> r <> [] /\ forallb handle_char r = true.
Proof.
  unfold rule_atupi. destruct (re_search pat_atupi s) as [m|] eqn:Hm; [|discriminate].
  intros H; injection H as <-.
  destruct (search_atupi_group _ _ Hm) as [Hne Hall].
  rewrite strip_clean; [auto|].
  rewrite forallb_forall in *. intros c Hc.
  now rewrite (handle_char_not_space c (Hall c Hc)).
Qed.

Lemma rule_to_some s r :
  rule_to s = Some r ->
  exists g, 3 <= length g /\ forallb name_char g = true /\ r = strip g.
Proof.
  unfold rule_to. destruct (re_search pat_to s) as [m|] eqn:Hm; [|discriminate].
  intros H; injection H as <-.
  destruct (search_to_group s m (or_introl Hm)). eauto.
Qed.

Lemma rule_from_some s r :
  rule_from s = Some r ->
  exists g, 3 <= length g /\ forallb name_char g = true /\ r = strip g.
Proof.
  unfold rule_from. destruct (re_search pat_from s) as [m|] eqn:Hm; [|discriminate].
  intros H; injection H as <-.
  destruct (search_to_group s m (or_intror Hm)). eauto.
Qed.

Lemma meaningful_long part : meaningful part = true -> 2 < length part.
Proof.
  unfold meaningful. rewrite !andb_true_iff, Nat.ltb_lt. tauto.
Qed.

Lemma first_meaningful_some parts r :
  first_meaningful parts = Some r -> 3 <= length r <= 60.
Proof.
  revert r.
  induction parts as [|part parts IH]; intros r; cbn [first_meaningful];
    [discriminate|].
  destruct (meaningful (strip part)) eqn:Hm; [|apply IH].
  intros H. assert (Hr : r = slice_to 60 (strip part)) by congruence.
  apply meaningful_long in Hm.
  pose proof (slice_to_long 60 (strip part)). rewrite Hr. lia.
Qed.

Lemma rule_split_some s r : rule_split s = Some r -> 3 <= length r <= 60.
Proof. apply first_meaningful_some. Qed.

(** The rule that [fired_text] names is the one whose [return] gave
    the result. *)
Lemma fired_text_cases (s : text) :
  let r := extract_merchant_text s in
  match fired_text s with
  | Absent => False
  | RUpi => rule_upi s = Some r
  | RRev => rule_upi s = None /\ rule_rev s = Some r
  | RFt => rule_ft s = Some r
  | RAtUpi => rule_atupi s = Some r
  | RTo => rule_to s = Some r
  | RFrom => rule_from s = Some r
  | RSplit => rule_split s = Some r
  | RWhole => rule_split s = None /\ r = slice_to 60 s
  end.
Proof.
  unfold fired_text, extract_merchant_text.
  destruct (rule_upi s); simpl; [reflexivity|].
  destruct (rule_rev s); simpl; [auto|].
  destruct (rule_ft s); simpl; [reflexivity|].
  destruct (rule_atupi s); simpl; [reflexivity|].
  destruct (rule_to s); simpl; [reflexivity|].
  destruct (rule_from s); simpl; [reflexivity|].
  destruct (rule_split s); simpl; auto.
Qed.

(** C1, at the input of the claim: the reversal narration
    "REV-UPI-REF456-FLIPKART@icici-UPI" is answered by pattern 1, which
    matches inside "REV-UPI-" and returns the reference "REF456";
    pattern 2, had it been reached, would have given "FLIPKART". *)
Theorem reversal_example_returns_reference :
  extract_merchant (Some "REV-UPI-REF456-FLIPKART@icici-UPI") = "REF456"%string
  /\ fired (Some "REV-UPI-REF456-FLIPKART@icici-UPI"%string) = RUpi
  /\ rule_rev (of_string "REV-UPI-REF456-FLIPKART@icici-UPI")
     = Some (of_string "FLIPKART").
Proof. repeat split; vm_compute; reflexivity. Qed.

(** C2 fails as stated: the empty narration and a narration whose "to"
    capture is blank both give the empty string, and a name found by
    pattern 1 is returned whole, here with 64 characters. *)
Lemma merchant_contract_counterexample :
  extract_merchant (Some ""%string) = ""%string
  /\ extract_merchant (Some "to    "%string) = ""%string
  /\ String.length
       (extract_merchant
          (Some "UPI-AAAAAAAAAAAAAAAAAAAAAAAAAAAAAAAAAAAAAAAAAAAAAAAAAAAAAAAAAAAAAAAA-x"%string))
     = 64
  /\ ~ (forall s : string,
          extract_merchant (Some s) <> ""%string
          /\ String.length (extract_merchant (Some s)) <= 60).
Proof.
  repeat split; try (vm_compute; reflexivity).
  intros H. destruct (H ""%string) as [H0 _]. apply H0. reflexivity.
Qed.

(** C2, amended: an absent narration gives the empty string; a result of
    the fallback split has 3 to 60 characters; a result of the final
    fallback has at most 60 characters and is empty only for the empty
    narration; names returned by patterns 1 to 3 have at least 3
    characters and a handle returned by pattern 4 at least 1, neither
    being cut at 60; what the "to" and "from" patterns return is the
    trimmed text of a capture of at least 3 characters, which can be
    empty. *)
Theorem merchant_result_bounds (text : option string) :
  let r := extract_merchant text in
  match fired text with
  | Absent => text = None /\ r = ""%string
  | RUpi | RRev | RFt => 3 <= String.length r
  | RAtUpi => 1 <= String.length r
  | RTo | RFrom =>
      exists g, 3 <= length g /\ r = to_string (strip g)
  | RSplit => 3 <= String.length r <= 60
  | RWhole =>
      String.length r <= 60 /\ (r = ""%string <-> text = Some ""%string)
  end.
Proof.
  destruct text as [s|]; simpl; [|auto].
  pose proof (fired_text_cases (of_string s)) as H. simpl in H.
  rewrite to_string_length.
  destruct (fired_text (of_string s)).
  - contradiction.
  - apply rule_upi_some in H. lia.
  - destruct H as [_ H]. apply rule_rev_some in H. lia.
  - apply rule_ft_some in H. lia.
  - apply rule_atupi_some in H as [H _].
    destruct (extract_merchant_text (of_string s)); [contradiction | simpl; lia].
  - apply rule_to_some in H as (g & Hg & _ & ->). eauto.
  - apply rule_from_some in H as (g & Hg & _ & ->). eauto.
  - now apply rule_split_some in H.
  - destruct H as [_ ->]. split; [apply slice_to_length|].
    rewrite to_string_nil, slice_to_nil by lia.
    split.
    + intros H. f_equal. rewrite <- (to_of_string s), H. reflexivity.
    + intros H. injection H as ->. reflexivity.
Qed.



End MerchantFacts.

(** ** The date normaliser *)

Module DateFacts.

Import Py Values Dates.

(** C8: for every cell and every behaviour of the two library calls,
    [try_parse_date] returns: the result is NaT for a null cell, for a
    cell whose text is blank, and whenever the parser or the conversion
    raises; otherwise it is the timestamp that the library call gave.
    No exception reaches the caller. *)
Theorem try_parse_date_total (E : Env) (x : value) :
  exists r : option datetime,
    try_parse_date E x = Returns r
    /\ r = match x with
           | VNull => None
           | VTime t =>
               match to_datetime E t with
               | Returns t' => Some t'
               | Raises => None
               end
           | _ =>
               let s := strip (of_string (str E x)) in
               if eqb_text s [] then None
               else match parser_parse E (to_string s) with
                    | Returns t => Some t
                    | Raises => None
                    end
           end.
Proof.
  unfold try_parse_date.
  destruct x as [|s|n|z|t|d]; cbn [isna try_except];
    try (eexists; split; reflexivity);
    try (destruct (eqb_text _ []);
         [eexists; split; reflexivity|];
         destruct (parser_parse E _); eexists; split; reflexivity).
  destruct (to_datetime E t); eexists; split; reflexivity.
Qed.

Lemma date_cell_time_or_null (E : Env) (x : value) :
  date_cell E x = VNull \/ exists t, date_cell E x = VTime t.
Proof.
  unfold date_cell. destruct (try_parse_date E x) as [[t|]|]; eauto.
Qed.

End DateFacts.

(** ** The amount and type of a row *)

Module AmountFacts.

Import Py Values Amounts.

Lemma num_abs_nonneg (x : num) : num_nonneg (num_abs x) = true.
Proof.
  destruct x as [q| |]; simpl; try reflexivity.
  apply Qle_bool_iff, Qabs_nonneg.
Qed.

Lemma num_abs_idem (x : num) : num_abs (num_abs x) = num_abs x.
Proof.
  destruct x as [[n d]| |]; simpl; try reflexivity.
  now rewrite Z.abs_idemp.
Qed.


Lemma zero_nonneg : num_nonneg zero = true.
Proof. reflexivity. Qed.

Lemma int64_abs_min : int64_abs int64_min = int64_min.
Proof. reflexivity. Qed.

Lemma int64_abs_other (z : Z) : z <> int64_min -> int64_abs z = Z.abs z.
Proof.
  intros H. unfold int64_abs.
  destruct (Z.eqb_spec z int64_min); [contradiction | reflexivity].
Qed.

Lemma int64_abs_cases (z : Z) :
  (0 <=? int64_abs z)%Z = true \/ int64_abs z = int64_min.
Proof.
  unfold int64_abs. destruct (Z.eqb_spec z int64_min) as [-> | _]; [now right|].
  left. apply Z.leb_le, Z.abs_nonneg.
Qed.


Lemma fillna_zero_to_nan (c d : num) :
  fillna (zero_to_nan c) d = if num_is_zero c then d else c.
Proof. unfold zero_to_nan. now destruct (num_is_zero c). Qed.

End AmountFacts.

(** ** Frames *)

Module FrameFacts.

Import Py Re Values Dates Amounts Merchant Frame.
Import PyFacts ReFacts AmountFacts.

Lemma lookup_set_same cols c s : lookup (set_col cols c s) c = Some s.
Proof.
  induction cols as [|[n x] cols IH]; simpl.
  - now rewrite String.eqb_refl.
  - destruct (String.eqb n c) eqn:Hn; simpl; now rewrite Hn.
Qed.

Lemma lookup_set_other cols c s c' :
  String.eqb c c' = false -> lookup (set_col cols c s) c' = lookup cols c'.
Proof.
  intros Hc. induction cols as [|[n x] cols IH]; simpl.
  - now rewrite Hc.
  - destruct (String.eqb n c) eqn:Hn; simpl.
    + apply String.eqb_eq in Hn. subst n. now rewrite Hc.
    + now rewrite IH.
Qed.

Lemma get_assign_same df c s : get (assign df c s) c = s.
Proof. unfold get, assign; simpl. now rewrite lookup_set_same. Qed.

Lemma get_assign_other df c s c' :
  String.eqb c c' = false -> get (assign df c s) c' = get df c'.
Proof. intros H. unfold get, assign; simpl. now rewrite lookup_set_other. Qed.

Lemma nrows_assign df c s : nrows (assign df c s) = nrows df.
Proof. reflexivity. Qed.

Lemma names_set_col cols c s :
  map fst (set_col cols c s)
  = if existsb (String.eqb c) (map fst cols) then map fst cols
    else map fst cols ++ [c].
Proof.
  induction cols as [|[n x] cols IH]; simpl; [reflexivity|].
  rewrite (String.eqb_sym c n).
  destruct (String.eqb n c) eqn:Hn; simpl; [reflexivity|].
  rewrite IH. now destruct (existsb _ _).
Qed.

Lemma has_col_assign df c s c' :
  has_col (assign df c s) c' = has_col df c' || String.eqb c' c.
Proof.
  unfold has_col, names, assign; simpl. rewrite names_set_col.
  destruct (existsb (String.eqb c) (map fst (columns df))) eqn:Hc.
  - destruct (String.eqb c' c) eqn:Hcc; [|now rewrite orb_false_r].
    apply String.eqb_eq in Hcc. subst c'. now rewrite Hc.
  - rewrite existsb_app. simpl. now rewrite orb_false_r.
Qed.

Lemma has_col_assign_same df c s : has_col (assign df c s) c = true.
Proof. rewrite has_col_assign, String.eqb_refl. apply orb_true_r. Qed.

Lemma has_col_assign_keep df c s c' :
  has_col df c' = true -> has_col (assign df c s) c' = true.
Proof. intros H. now rewrite has_col_assign, H. Qed.

Lemma has_col_lookup df c :
  has_col df c = true -> exists s, lookup (columns df) c = Some s /\ In (c, s) (columns df).
Proof.
  unfold has_col, names. induction (columns df) as [|[n x] cols IH]; simpl;
    [discriminate|].
  rewrite (String.eqb_sym c n).
  destruct (String.eqb n c) eqn:Hn; simpl.
  - apply String.eqb_eq in Hn. subst n. eauto.
  - intros H. destruct (IH H) as (s & Hs & Hin). eauto.
Qed.

Lemma has_col_In df c : In c (names df) -> has_col df c = true.
Proof.
  intros H. unfold has_col. apply existsb_exists.
  exists c. split; [assumption | apply String.eqb_refl].
Qed.

(** *** Well-formed frames *)

Lemma well_formed_get df c :
  well_formed df = true -> has_col df c = true ->
  length (cells (get df c)) = nrows df.
Proof.
  intros Hwf Hc. destruct (has_col_lookup df c Hc) as (s & Hs & Hin).
  unfold get. rewrite Hs.
  unfold well_formed in Hwf. rewrite forallb_forall in Hwf.
  apply Nat.eqb_eq. apply (Hwf (c, s) Hin).
Qed.

Lemma well_formed_set_col n cols c s :
  forallb (fun col => length (cells (snd col)) =? n) cols = true ->
  length (cells s) = n ->
  forallb (fun col => length (cells (snd col)) =? n) (set_col cols c s) = true.
Proof.
  intros Hwf Hs. induction cols as [|[m x] cols IH]; simpl in *.
  - now rewrite Hs, Nat.eqb_refl.
  - apply andb_true_iff in Hwf as [Hx Hrest].
    destruct (String.eqb m c); simpl.
    + now rewrite Hs, Nat.eqb_refl, Hrest.
    + now rewrite Hx, IH.
Qed.

Lemma well_formed_assign df c s :
  well_formed df = true -> length (cells s) = nrows df ->
  well_formed (assign df c s) = true.
Proof. intros Hwf Hs. now apply well_formed_set_col. Qed.

Lemma well_formed_assign_scalar df c d v :
  well_formed df = true -> well_formed (assign_scalar df c d v) = true.
Proof.
  intros Hwf. apply well_formed_assign; [assumption|].
  simpl. apply repeat_length.
Qed.

(** *** Row selection *)

Lemma select_Forall {A : Type} (P : A -> Prop) mask (l : list A) :
  Forall P l -> Forall P (select mask l).
Proof.
  intros H. revert mask. induction H as [|x l Hx _ IH]; intros [|b mask]; simpl;
    try constructor.
  destruct b; [constructor|]; auto.
Qed.

Lemma select_nil {A : Type} mask : select mask (@nil A) = [].
Proof. now destruct mask. Qed.

Lemma lookup_filter_rows mask cols c :
  lookup (map (fun '(n, s) => (n, mkSeries (dtype_of s) (select mask (cells s)))) cols) c
  = option_map (fun s => mkSeries (dtype_of s) (select mask (cells s))) (lookup cols c).
Proof.
  induction cols as [|[n x] cols IH]; simpl; [reflexivity|].
  destruct (String.eqb n c); [reflexivity | exact IH].
Qed.

Lemma get_filter_rows mask df c :
  cells (get (filter_rows mask df) c) = select mask (cells (get df c)).
Proof.
  unfold get, filter_rows; simpl. rewrite lookup_filter_rows.
  destruct (lookup (columns df) c); simpl; [reflexivity|].
  now rewrite select_nil.
Qed.

Lemma names_filter_rows mask df : names (filter_rows mask df) = names df.
Proof.
  unfold names, filter_rows; simpl. rewrite map_map.
  apply map_ext. now intros [n s].
Qed.

Lemma has_col_filter_rows mask df c :
  has_col (filter_rows mask df) c = has_col df c.
Proof. unfold has_col. now rewrite names_filter_rows. Qed.

Section Filters.

Variable E : Env.
Variable sb : Sidebar.

Lemma filtered_Forall (P : value -> Prop) w c :
  Forall P (cells (get w c)) -> Forall P (cells (get (filtered E sb w) c)).
Proof.
  intros H. unfold filtered, filter_search, filter_max, filter_min.
  destruct (String.eqb (global_search sb) ""), (date_max sb), (date_min sb);
    repeat (rewrite get_filter_rows; apply select_Forall); assumption.
Qed.

Lemma has_col_filtered w c : has_col (filtered E sb w) c = has_col w c.
Proof.
  unfold filtered, filter_search, filter_max, filter_min.
  destruct (String.eqb (global_search sb) ""), (date_max sb), (date_min sb);
    repeat rewrite has_col_filter_rows; reflexivity.
Qed.

End Filters.

(** *** The display frame *)

Lemma ensure_cols_get w c :
  has_col w c = true -> get (ensure_cols w) c = get w c.
Proof.
  unfold ensure_cols. generalize display_cols as cs.
  intros cs. revert w. induction cs as [|c' cs IH]; intros w Hc; simpl;
    [reflexivity|].
  destruct (has_col w c') eqn:Hc'; simpl; [now apply IH|].
  assert (Hne : String.eqb c' c = false).
  { destruct (String.eqb c' c) eqn:Heq; [|reflexivity].
    apply String.eqb_eq in Heq. congruence. }
  rewrite IH.
  - unfold assign_scalar. now rewrite get_assign_other.
  - unfold assign_scalar. now apply has_col_assign_keep.
Qed.

Lemma nrows_ensure_cols w : nrows (ensure_cols w) = nrows w.
Proof.
  unfold ensure_cols. generalize display_cols as cs.
  intros cs. revert w. induction cs as [|c' cs IH]; intros w; simpl;
    [reflexivity|].
  rewrite IH. now destruct (has_col w c').
Qed.

Lemma normalize_unfold E sb raw :
  normalize E sb raw = display (ensure_cols (filtered E sb (ingest E raw))).
Proof. reflexivity. Qed.

Lemma normalize_no_filter E raw :
  normalize E no_filter raw = display (ensure_cols (ingest E raw)).
Proof. reflexivity. Qed.

Lemma names_display w :
  names (display w) = ["Date"; "Merchant"; "Amount"; "Type"; "Category"]%string.
Proof. reflexivity. Qed.

(** *** Column classification *)

Lemma first_found_some p cols c :
  first_found p cols = Some c -> In c cols /\ found p c = true.
Proof.
  induction cols as [|x cols IH]; simpl; [discriminate|].
  destruct (found p x) eqn:Hx.
  - intros H; injection H as <-. auto.
  - intros H. destruct (IH H). auto.
Qed.

Lemma keep_first_some p c x y :
  keep_first p c x = Some y -> x = Some y \/ (y = c /\ found p c = true).
Proof.
  unfold keep_first. destruct (found p c) eqn:Hc; simpl; [|auto].
  destruct (is_none x); [|auto].
  intros H; injection H as <-. auto.
Qed.

Lemma amount_roles_fold cols0 cols acc :
  incl cols cols0 ->
  (let '(a, d, c) := acc in
   role_ok pat_amount_col cols0 a /\ role_ok pat_debit_col cols0 d
   /\ role_ok pat_credit_col cols0 c) ->
  let '(a, d, c) :=
    fold_left
      (fun '(a, d, c) col =>
         (keep_first pat_amount_col col a,
          keep_first pat_debit_col col d,
          keep_first pat_credit_col col c))
      cols acc in
  role_ok pat_amount_col cols0 a /\ role_ok pat_debit_col cols0 d
  /\ role_ok pat_credit_col cols0 c.
Proof.
  revert acc. induction cols as [|x cols IH]; intros [[a d] c] Hincl Hacc; simpl.
  - exact Hacc.
  - apply IH.
    + intros y Hy. apply Hincl. now right.
    + assert (Hx : In x cols0) by (apply Hincl; now left).
      destruct Hacc as (Ha & Hd & Hc).
      split; [|split]; intros y Hy;
        apply keep_first_some in Hy as [Hy | [-> Hy]];
        auto; try (now apply Ha); try (now apply Hd); try (now apply Hc).
Qed.

Lemma classify_roles cols :
  let r := classify cols in
  role_ok pat_date_col cols (date_col r)
  /\ role_ok pat_narration_col cols (narration_col r)
  /\ role_ok pat_amount_col cols (amount_col r)
  /\ role_ok pat_debit_col cols (debit_col r)
  /\ role_ok pat_credit_col cols (credit_col r).
Proof.
  unfold classify, amount_roles.
  pose proof (amount_roles_fold cols cols (None, None, None) (incl_refl _)) as H.
  destruct (fold_left _ cols (None, None, None)) as [[a d] c]. simpl.
  split; [intros y Hy; now apply first_found_some in Hy|].
  split; [intros y Hy; now apply first_found_some in Hy|].
  apply H. split; [|split]; intros y Hy; discriminate.
Qed.

Lemma truthy_some x s : truthy x = Some s -> x = Some s.
Proof.
  destruct x as [y|]; simpl; [|discriminate].
  destruct (String.eqb y ""); [discriminate | auto].
Qed.

Lemma truthy_none_of_none x : x = None -> truthy x = None.
Proof. now intros ->. Qed.

(** *** Steps of the script as assignments *)

Lemma existsb_eqb_false c W c' :
  existsb (String.eqb c') W = false -> existsb (String.eqb c) W = true ->
  String.eqb c c' = false.
Proof.
  intros Hc' Hc. destruct (String.eqb c c') eqn:Heq; [|reflexivity].
  apply String.eqb_eq in Heq. congruence.
Qed.

Lemma writes_nrows W df df' : writes W df df' -> nrows df' = nrows df.
Proof. induction 1; simpl; auto. Qed.

Lemma writes_get W df df' c' :
  writes W df df' -> existsb (String.eqb c') W = false ->
  get df' c' = get df c'.
Proof.
  induction 1 as [|df' c s _ IH Hc]; intros Hc'; [reflexivity|].
  rewrite get_assign_other; [auto|].
  eapply existsb_eqb_false; eauto.
Qed.

Lemma writes_has_col W df df' c' :
  writes W df df' -> existsb (String.eqb c') W = false ->
  has_col df' c' = has_col df c'.
Proof.
  induction 1 as [|df' c s _ IH Hc]; intros Hc'; [reflexivity|].
  rewrite has_col_assign, IH by assumption.
  rewrite String.eqb_sym, (existsb_eqb_false c W c') by assumption.
  apply orb_false_r.
Qed.

Lemma writes_keeps_col W df df' c' :
  writes W df df' -> has_col df c' = true -> has_col df' c' = true.
Proof.
  induction 1 as [|df' c s _ IH Hc]; intros Hc'; [assumption|].
  apply has_col_assign_keep. auto.
Qed.

Lemma writes_trans W df1 df2 df3 :
  writes W df1 df2 -> writes W df2 df3 -> writes W df1 df3.
Proof.
  intros H12 H23. induction H23; [assumption|].
  now apply writes_assign.
Qed.

Lemma writes_weaken W W' df df' :
  (forall c, existsb (String.eqb c) W = true -> existsb (String.eqb c) W' = true) ->
  writes W df df' -> writes W' df df'.
Proof.
  intros Hsub. induction 1; [constructor|].
  apply writes_assign; auto.
Qed.

Ltac writes_tac :=
  repeat first
    [ apply writes_none
    | apply writes_assign; [|reflexivity] ].

Section Ingest.

Variable E : Env.

Lemma with_date_writes r df :
  writes ["Date"%string] df (with_date E r df).
Proof. unfold with_date. destruct (truthy (date_col r)); writes_tac. Qed.

Lemma with_merchant_writes r df :
  writes ["Merchant"%string] df (with_merchant E r df).
Proof.
  unfold with_merchant, assign_scalar.
  destruct (truthy (narration_col r)); [writes_tac|].
  destruct (text_cols df); writes_tac.
Qed.

Lemma with_amount_writes r raw df :
  writes ["Amount"; "Debit"; "Credit"; "Type"]%string df (with_amount E r raw df).
Proof.
  unfold with_amount, assign_scalar.
  destruct (truthy (amount_col r)); [|writes_tac].
  destruct (truthy (debit_col r)), (truthy (credit_col r)); writes_tac.
Qed.

Lemma with_category_writes df :
  writes ["Category"%string] df (with_category df).
Proof.
  unfold with_category, assign_scalar.
  destruct (negb (has_col df "Category")); writes_tac.
Qed.

Lemma with_date_display_writes df :
  writes ["Date_display"%string] df (with_date_display df).
Proof. unfold with_date_display. writes_tac. Qed.

Ltac has_col_tac :=
  repeat first
    [ apply has_col_assign_same
    | apply has_col_assign_keep ].

Lemma with_amount_has_cols r raw df :
  has_col (with_amount E r raw df) "Amount" = true
  /\ has_col (with_amount E r raw df) "Type" = true.
Proof.
  unfold with_amount, assign_scalar.
  destruct (truthy (amount_col r)); [|split; has_col_tac].
  destruct (truthy (debit_col r)), (truthy (credit_col r)); split; has_col_tac.
Qed.

Lemma with_category_has_col df : has_col (with_category df) "Category" = true.
Proof.
  unfold with_category, assign_scalar.
  destruct (has_col df "Category") eqn:H; simpl; [assumption | has_col_tac].
Qed.

Lemma ingest_unfold raw :
  ingest E raw = with_date_display (with_category (after_amount E raw)).
Proof. reflexivity. Qed.

Lemma nrows_after_merchant raw : nrows (after_merchant E raw) = nrows raw.
Proof.
  unfold after_merchant, after_date.
  now rewrite (writes_nrows _ _ _ (with_merchant_writes _ _)),
    (writes_nrows _ _ _ (with_date_writes _ _)).
Qed.

Lemma nrows_ingest raw : nrows (ingest E raw) = nrows raw.
Proof.
  rewrite ingest_unfold.
  rewrite (writes_nrows _ _ _ (with_date_display_writes _)),
    (writes_nrows _ _ _ (with_category_writes _)).
  unfold after_amount.
  rewrite (writes_nrows _ _ _ (with_amount_writes _ _ _)).
  apply nrows_after_merchant.
Qed.

(** Columns that the last two steps leave alone. *)
Lemma ingest_get raw c :
  existsb (String.eqb c) ["Category"; "Date_display"]%string = false ->
  get (ingest E raw) c = get (after_amount E raw) c.
Proof.
  intros Hc. rewrite ingest_unfold. simpl in Hc.
  apply orb_false_iff in Hc as [Hc1 Hc2].
  transitivity (get (with_category (after_amount E raw)) c).
  - apply (writes_get ["Date_display"%string]);
      [apply with_date_display_writes | exact Hc2].
  - apply (writes_get ["Category"%string]);
      [apply with_category_writes | simpl; now rewrite Hc1].
Qed.

Lemma ingest_has_cols raw :
  forallb (has_col (ingest E raw)) display_cols = true.
Proof.
  rewrite ingest_unfold.
  destruct (with_amount_has_cols (classify (names raw)) raw (after_merchant E raw))
    as [Ha Ht].
  assert (Hm : has_col (after_amount E raw) "Merchant" = true).
  { unfold after_amount, after_merchant.
    eapply writes_keeps_col; [apply with_amount_writes|].
    unfold with_merchant, assign_scalar.
    destruct (truthy (narration_col _)); [has_col_tac|].
    destruct (text_cols _); has_col_tac. }
  pose proof (with_category_has_col (after_amount E raw)) as Hc.
  unfold with_date_display. simpl.
  rewrite has_col_assign_same. simpl.
  rewrite !has_col_assign_keep; auto;
    eapply writes_keeps_col; try apply with_category_writes; assumption.
Qed.

End Ingest.

Lemma ensure_cols_id w :
  forallb (has_col w) display_cols = true -> ensure_cols w = w.
Proof.
  unfold ensure_cols, display_cols. intros H. simpl in H.
  rewrite !andb_true_iff in H. destruct H as (H1 & H2 & H3 & H4 & H5 & _).
  simpl. rewrite H1. simpl. rewrite H2. simpl. rewrite H3. simpl.
  rewrite H4. simpl. now rewrite H5.
Qed.

Lemma forallb_has_col_filtered E sb w :
  forallb (has_col (filtered E sb w)) display_cols
  = forallb (has_col w) display_cols.
Proof.
  unfold display_cols. simpl. now rewrite !has_col_filtered.
Qed.

(** The display frame is a rearrangement of the filtered frame. *)
Lemma normalize_display E sb raw :
  normalize E sb raw = display (filtered E sb (ingest E raw)).
Proof.
  rewrite normalize_unfold, ensure_cols_id; [reflexivity|].
  rewrite forallb_has_col_filtered. apply ingest_has_cols.
Qed.

Lemma normalize_get E sb raw c :
  existsb (String.eqb c) ["Merchant"; "Amount"; "Type"; "Category"]%string = true ->
  get (normalize E sb raw) c = get (filtered E sb (ingest E raw)) c.
Proof.
  rewrite normalize_display. simpl. rewrite !orb_false_r, !orb_true_iff.
  intros [H | [H | [H | H]]]; apply String.eqb_eq in H; subst c; reflexivity.
Qed.

Lemma filtered_no_filter E w : filtered E no_filter w = w.
Proof. reflexivity. Qed.

(** *** Amount and Type columns *)

Lemma Forall_repeat {A : Type} (P : A -> Prop) (x : A) (n : nat) :
  P x -> Forall P (repeat x n).
Proof. intros H. induction n; simpl; constructor; auto. Qed.

Section Columns.

Variable E : Env.

Lemma after_amount_no_amount raw :
amount_col (classify (names raw)) = None ->
get (after_amount E raw) "Amount" = mkSeries DInt (repeat (VNum zero) (nrows raw))
/\ get (after_amount E raw) "Type" = mkSeries DObject (repeat (VStr Debit) (nrows raw)).
Proof.
intros H. unfold after_amount, with_amount. rewrite H. cbn [truthy].
unfold assign_scalar. cbn [nrows assign]. rewrite nrows_after_merchant.
split.
- rewrite get_assign_other by reflexivity. apply get_assign_same.
- apply get_assign_same.
Qed.

(** **** Cells of the numeric columns *)

Lemma Forall_mapped {A B : Type} (P : A -> Prop) (Q : B -> Prop) (f : A -> B) l :
(forall x, P x -> Q (f x)) -> Forall P l -> Forall Q (map f l).
Proof.
intros H HF. apply Forall_map. eapply Forall_impl; [|exact HF]. exact H.
Qed.

Lemma abs_cell_number v : is_number v = true -> amount_or_min (abs_cell v).
Proof.
destruct v as [|s|x|z|t|d]; try discriminate; intros _; cbn [abs_cell].
- left. apply num_abs_nonneg.
- destruct (int64_abs_cases z) as [H | H]; [left; exact H | right; now rewrite H].
Qed.




Lemma fill_zero_numeric v : numeric v = true -> is_number (fill_zero v) = true.
Proof. now destruct v as [|s|x|z|t|d]. Qed.

Lemma to_float_number v : is_number v = true -> is_number (to_float_cell E v) = true.
Proof. now destruct v as [|s|x|z|t|d]. Qed.

Lemma is_number_numeric v : is_number v = true -> numeric v = true.
Proof. intros H. unfold numeric. now rewrite H. Qed.

Lemma to_numeric_numeric col :
Forall (fun v => numeric v = true) (cells (to_numeric_series E col)).
Proof.
unfold to_numeric_series. destruct (int_column E col); cbn [cells];
  apply Forall_forall; intros v Hv; apply in_map_iff in Hv as (s & <- & _);
  [reflexivity|].
now destruct (to_numeric E s).
Qed.

Lemma parsed_numbers col :
Forall (fun v => is_number v = true) (cells (fillna_zero (to_numeric_series E col))).
Proof.
cbn [fillna_zero cells].
eapply Forall_mapped; [|apply to_numeric_numeric]. apply fill_zero_numeric.
Qed.

Lemma parsed_amount_numbers s :
Forall (fun v => is_number v = true) (cells (parsed_amount E s)).
Proof. apply parsed_numbers. Qed.

Lemma parsed_side_numbers s :
Forall (fun v => is_number v = true) (cells (parsed_side E s)).
Proof. apply parsed_numbers. Qed.

Lemma zero_to_nan_numeric s :
Forall (fun v => is_number v = true) (cells s) ->
Forall (fun v => numeric v = true) (cells (zero_to_nan_series E s)).
Proof.
intros H. unfold zero_to_nan_series. destruct (existsb _ _); cbn [cells].
- eapply Forall_mapped; [|exact H]. intros v Hv. cbn.
  destruct (cell_is_zero v); [reflexivity|].
  now apply is_number_numeric, to_float_number.
- eapply Forall_impl; [|exact H]. intros v. apply is_number_numeric.
Qed.

Lemma fillna_series_numeric a b :
Forall (fun v => numeric v = true) (cells a) ->
Forall (fun v => is_number v = true) (cells b) ->
Forall (fun v => numeric v = true) (cells (fillna_series E a b)).
Proof.
intros Ha Hb. unfold fillna_series. destruct (dtype_of a); try exact Ha.
cbn [cells]. apply Forall_forall. intros v Hv.
apply in_map_iff in Hv as ([x y] & <- & Hin).
pose proof (in_combine_l _ _ _ _ Hin) as Hx.
pose proof (in_combine_r _ _ _ _ Hin) as Hy.
rewrite Forall_forall in Ha, Hb.
destruct x as [|s|n|z|t|d]; try (now apply Ha).
now apply is_number_numeric, to_float_number, Hb.
Qed.

Lemma abs_amount s :
Forall (fun v => is_number v = true) (cells s) ->
Forall amount_or_min (cells (abs_series s)).
Proof. cbn [abs_series cells]. apply Forall_mapped, abs_cell_number. Qed.

Lemma abs_fill_amount s :
Forall (fun v => numeric v = true) (cells s) ->
Forall amount_or_min (cells (fillna_zero (abs_series s))).
Proof.
cbn [fillna_zero abs_series cells]. rewrite map_map.
apply Forall_mapped. intros v Hv.
destruct v as [|x|n|z|t|d]; try discriminate.
- left. reflexivity.
- left. apply num_abs_nonneg.
- cbn. destruct (int64_abs_cases z) as [H | H]; [left; exact H | right; now rewrite H].
Qed.

(** **** What lines 208-226 leave in the columns Amount and Type *)

Lemma with_amount_none r raw df :
truthy (amount_col r) = None ->
get (with_amount E r raw df) "Amount" = mkSeries DInt (repeat (VNum zero) (nrows df))
/\ get (with_amount E r raw df) "Type" = mkSeries DObject (repeat (VStr Debit) (nrows df)).
Proof.
intros H. unfold with_amount. rewrite H. unfold assign_scalar. split.
- rewrite get_assign_other by reflexivity. apply get_assign_same.
- apply get_assign_same.
Qed.

Lemma with_amount_single r raw df a :
truthy (amount_col r) = Some a ->
truthy (debit_col r) = None \/ truthy (credit_col r) = None ->
get (with_amount E r raw df) "Amount" = abs_series (parsed_amount E (get df a))
/\ get (with_amount E r raw df) "Type" = type_of_sign (texts E (get raw a)).
Proof.
intros Ha Hdc. unfold with_amount. rewrite Ha. cbv zeta.
assert (Hsingle : forall T,
  get (assign (assign (assign df "Amount" (parsed_amount E (get df a))) "Type" T)
         "Amount"
         (abs_series
            (get (assign (assign df "Amount" (parsed_amount E (get df a))) "Type" T)
                 "Amount")))
      "Amount"
  = abs_series (parsed_amount E (get df a))).
{ intros T. rewrite get_assign_same.
  rewrite get_assign_other by reflexivity. now rewrite get_assign_same. }
assert (Htype : forall X T A,
  get (assign (assign X "Type" T) "Amount" A) "Type" = T).
{ intros X T A. rewrite get_assign_other by reflexivity. apply get_assign_same. }
destruct Hdc as [Hn | Hn]; rewrite Hn.
- split; [apply Hsingle | apply Htype].
- destruct (truthy (debit_col r)); split; first [apply Hsingle | apply Htype].
Qed.

Lemma with_amount_split r raw df a d c :
truthy (amount_col r) = Some a ->
truthy (debit_col r) = Some d ->
truthy (credit_col r) = Some c ->
let df1 := assign df "Amount" (parsed_amount E (get df a)) in
let df2 := assign df1 "Debit" (parsed_side E (get df1 d)) in
let debit := parsed_side E (get df1 d) in
let credit := parsed_side E (get df2 c) in
get (with_amount E r raw df) "Amount"
= fillna_zero (abs_series (fillna_series E (zero_to_nan_series E credit) debit))
/\ get (with_amount E r raw df) "Type" = type_of_credit credit.
Proof.
intros Ha Hd Hc. unfold with_amount. rewrite Ha, Hd, Hc. cbv zeta.
set (df1 := assign df "Amount" (parsed_amount E (get df a))).
set (df2 := assign df1 "Debit" (parsed_side E (get df1 d))).
set (df3 := assign df2 "Credit" (parsed_side E (get df2 c))).
assert (H3c : get df3 "Credit" = parsed_side E (get df2 c))
  by apply get_assign_same.
assert (H3d : get df3 "Debit" = parsed_side E (get df1 d)).
{ unfold df3. rewrite get_assign_other by reflexivity. apply get_assign_same. }
split.
- rewrite get_assign_other by reflexivity.
  rewrite get_assign_same, get_assign_same. now rewrite H3c, H3d.
- rewrite get_assign_same.
  rewrite !(get_assign_other _ "Amount" _ "Credit") by reflexivity.
  now rewrite H3c.
Qed.

Lemma with_amount_cells r raw df :
Forall amount_or_min (cells (get (with_amount E r raw df) "Amount")).
Proof.
destruct (truthy (amount_col r)) as [a|] eqn:Ha.
2:{ destruct (with_amount_none r raw df Ha) as [-> _]. cbn [cells].
    apply Forall_repeat. left. reflexivity. }
destruct (truthy (debit_col r)) as [d|] eqn:Hd.
2:{ destruct (with_amount_single r raw df a Ha (or_introl Hd)) as [-> _].
    apply abs_amount, parsed_amount_numbers. }
destruct (truthy (credit_col r)) as [c|] eqn:Hc.
2:{ destruct (with_amount_single r raw df a Ha (or_intror Hc)) as [-> _].
    apply abs_amount, parsed_amount_numbers. }
destruct (with_amount_split r raw df a d c Ha Hd Hc) as [-> _].
apply abs_fill_amount, fillna_series_numeric.
- apply zero_to_nan_numeric, parsed_side_numbers.
- apply parsed_side_numbers.
Qed.

(** C9: when no column name matches the amount patterns and a debit and
  a credit column resolve, the displayed Amount column is 0 and the
  Type column is "Debit" in every row: with no filter set they are
  the constant columns of the length of the input, whatever the cells
  of the debit and credit columns hold, and every row that a filter
  keeps has the same two values. *)
Theorem no_amount_column_defaults (raw : DataFrame) (d c : string) :
amount_col (classify (names raw)) = None ->
debit_col (classify (names raw)) = Some d ->
credit_col (classify (names raw)) = Some c ->
cells (get (normalize E no_filter raw) "Amount") = repeat (VNum zero) (nrows raw)
/\ cells (get (normalize E no_filter raw) "Type") = repeat (VStr Debit) (nrows raw)
/\ (forall sb,
      Forall (eq (VNum zero)) (cells (get (normalize E sb raw) "Amount"))
      /\ Forall (eq (VStr Debit)) (cells (get (normalize E sb raw) "Type")))
/\ (forall dv cv, reconcile E None dv cv = (zero, Debit)).
Proof.
intros Ha _ _.
destruct (after_amount_no_amount raw Ha) as [HA HT].
split; [|split; [|split]].
- rewrite normalize_get by reflexivity.
  rewrite filtered_no_filter, ingest_get by reflexivity. now rewrite HA.
- rewrite normalize_get by reflexivity.
  rewrite filtered_no_filter, ingest_get by reflexivity. now rewrite HT.
- intros sb. split.
  + rewrite normalize_get by reflexivity. apply filtered_Forall.
    rewrite ingest_get by reflexivity. rewrite HA. cbn [cells].
    apply Forall_repeat. reflexivity.
  + rewrite normalize_get by reflexivity. apply filtered_Forall.
    rewrite ingest_get by reflexivity. rewrite HT. cbn [cells].
    apply Forall_repeat. reflexivity.
- reflexivity.
Qed.

(** *** Merchant column without a narration column *)

Lemma with_date_shape r df :
exists S, with_date E r df = assign df "Date" S /\ dtype_of S = DDatetime.
Proof.
unfold with_date. destruct (truthy (date_col r)); eexists; split; reflexivity.
Qed.

Lemma filter_both {A : Type} (p q : A -> bool) (l : list A) :
filter (fun x => p x && q x) l = filter p (filter q l).
Proof.
induction l as [|x l IH]; simpl; [reflexivity|].
destruct (q x); simpl; rewrite ?andb_true_r, ?andb_false_r;
  [destruct (p x)|]; now rewrite IH.
Qed.

(** Once line 190 or 194 has written the Date column, the object
  columns are those of before without a column named "Date". *)
Lemma text_cols_assign_date df S :
dtype_of S = DDatetime ->
text_cols (assign df "Date" S) = filter not_date (text_cols df).
Proof.
intros HS. unfold text_cols.
assert (Hp : forall c,
  is_object (dtype_of (get (assign df "Date" S) c))
  = not_date c && is_object (dtype_of (get df c))).
{ intros c. unfold not_date. destruct (String.eqb c "Date") eqn:Hc.
  - apply String.eqb_eq in Hc. subst c. now rewrite get_assign_same, HS.
  - rewrite get_assign_other; [reflexivity | now rewrite String.eqb_sym]. }
rewrite (filter_ext _ _ Hp), filter_both.
unfold names, assign. cbn [columns]. rewrite names_set_col.
destruct (existsb _ _); [reflexivity|].
rewrite !filter_app. cbn. destruct (is_object _); cbn; now rewrite app_nil_r.
Qed.

Lemma after_merchant_no_narration raw :
narration_col (classify (names raw)) = None ->
cells (get (after_merchant E raw) "Merchant")
= match filter not_date (text_cols raw) with
  | c :: _ => map (merchant_cell E) (cells (get raw c))
  | [] => repeat (VStr "") (nrows raw)
  end.
Proof.
intros H. unfold after_merchant, after_date, with_merchant.
rewrite H. cbn [truthy].
destruct (with_date_shape (classify (names raw)) raw) as (S & HS & Hd).
rewrite HS, (text_cols_assign_date raw S Hd).
destruct (filter not_date (text_cols raw)) as [|c l] eqn:Hf.
- unfold assign_scalar. now rewrite get_assign_same.
- rewrite get_assign_same. cbn [apply cells].
  assert (Hc : In c (filter not_date (text_cols raw))) by (rewrite Hf; now left).
  apply filter_In in Hc as [_ Hc]. unfold not_date in Hc.
  apply negb_true_iff in Hc.
  rewrite get_assign_other; [reflexivity | now rewrite String.eqb_sym].
Qed.

(** C10, amended: when no column matches the narration patterns, the
  merchant is extracted from the first object-dtype column of the
  input that is not named "Date" (the frame is searched after the
  Date column was written, and that column then holds timestamps);
  if there is no such column, the merchant is the empty string in
  every row. *)
Theorem merchant_without_narration (raw : DataFrame) :
narration_col (classify (names raw)) = None ->
cells (get (normalize E no_filter raw) "Merchant")
= match filter not_date (text_cols raw) with
  | c :: _ => map (merchant_cell E) (cells (get raw c))
  | [] => repeat (VStr "") (nrows raw)
  end.
Proof.
intros H. rewrite normalize_get by reflexivity.
rewrite filtered_no_filter, ingest_get by reflexivity.
unfold after_amount.
rewrite (writes_get _ _ _ "Merchant" (with_amount_writes E _ _ _)) by reflexivity.
now apply after_merchant_no_narration.
Qed.

(** *** Shape of the display frame *)

Lemma has_col_after_date raw c :
has_col raw c = true -> has_col (after_date E raw) c = true.
Proof. apply writes_keeps_col with (W := ["Date"%string]), with_date_writes. Qed.

Lemma has_col_after_merchant raw c :
has_col raw c = true -> has_col (after_merchant E raw) c = true.
Proof.
intros H. unfold after_merchant.
eapply writes_keeps_col; [apply with_merchant_writes|].
now apply has_col_after_date.
Qed.

Lemma well_formed_apply df c d f src :
well_formed df = true -> has_col df src = true ->
well_formed (assign df c (apply d f (get df src))) = true.
Proof.
intros Hwf Hsrc. apply well_formed_assign; [assumption|].
cbn. rewrite length_map. now apply well_formed_get.
Qed.

Lemma well_formed_after_date raw :
well_formed raw = true -> well_formed (after_date E raw) = true.
Proof.
intros Hwf. unfold after_date, with_date.
destruct (truthy (date_col _)) as [c|] eqn:Hc.
- apply well_formed_apply; [assumption|].
  apply has_col_In. apply truthy_some in Hc.
  destruct (classify_roles (names raw)) as (Hd & _). now apply Hd in Hc.
- apply well_formed_assign; [assumption|].
  cbn. now rewrite length_map, length_seq.
Qed.

Lemma well_formed_after_merchant raw :
well_formed raw = true -> well_formed (after_merchant E raw) = true.
Proof.
intros Hwf. pose proof (well_formed_after_date raw Hwf) as Hd.
unfold after_merchant, with_merchant.
destruct (truthy (narration_col _)) as [c|] eqn:Hc.
- apply well_formed_apply; [assumption|].
  apply has_col_after_date, has_col_In. apply truthy_some in Hc.
  destruct (classify_roles (names raw)) as (_ & Hn & _). now apply Hn in Hc.
- destruct (text_cols (after_date E raw)) as [|c l] eqn:Ht.
  + now apply well_formed_assign_scalar.
  + apply well_formed_apply; [assumption|].
    apply has_col_In.
    assert (Hin : In c (text_cols (after_date E raw))) by (rewrite Ht; now left).
    unfold text_cols in Hin. now apply filter_In in Hin as [Hin _].
Qed.

Lemma length_to_numeric col : length (cells (to_numeric_series E col)) = length col.
Proof.
unfold to_numeric_series. destruct (int_column E col); cbn [cells];
  apply length_map.
Qed.

Lemma length_parsed_amount s : length (cells (parsed_amount E s)) = length (cells s).
Proof.
unfold parsed_amount. cbn [fillna_zero cells].
now rewrite length_map, length_to_numeric, length_map.
Qed.

Lemma length_parsed_side s : length (cells (parsed_side E s)) = length (cells s).
Proof.
unfold parsed_side. cbn [fillna_zero cells].
now rewrite length_map, length_to_numeric, length_map.
Qed.

Lemma length_zero_to_nan s :
length (cells (zero_to_nan_series E s)) = length (cells s).
Proof.
unfold zero_to_nan_series. destruct (existsb _ _); cbn [cells];
  [apply length_map | reflexivity].
Qed.

Lemma length_fillna_series a b :
length (cells a) = length (cells b) ->
length (cells (fillna_series E a b)) = length (cells a).
Proof.
intros H. unfold fillna_series. destruct (dtype_of a); try reflexivity.
cbn [cells]. rewrite length_map, length_combine, <- H. apply Nat.min_id.
Qed.

Lemma length_abs_series s : length (cells (abs_series s)) = length (cells s).
Proof. apply length_map. Qed.

Lemma length_fillna_zero s : length (cells (fillna_zero s)) = length (cells s).
Proof. apply length_map. Qed.

Lemma well_formed_after_amount raw :
well_formed raw = true -> well_formed (after_amount E raw) = true.
Proof.
intros Hwf.
pose proof (well_formed_after_merchant raw Hwf) as Hm.
pose proof (nrows_after_merchant E raw) as Hn.
destruct (classify_roles (names raw)) as (_ & _ & Ha & Hd & Hc).
unfold after_amount, with_amount. cbv zeta.
set (df := after_merchant E raw) in *.
assert (Hkeep : forall x, In x (names raw) -> has_col df x = true).
{ intros x Hx. apply has_col_after_merchant. now apply has_col_In. }
destruct (truthy (amount_col _)) as [a|] eqn:Ea.
2:{ now apply well_formed_assign_scalar, well_formed_assign_scalar. }
apply truthy_some in Ea. apply Ha in Ea as [Ea _].
set (df1 := assign df "Amount" (parsed_amount E (get df a))).
assert (W1 : well_formed df1 = true).
{ apply well_formed_assign; [assumption|].
  rewrite length_parsed_amount. apply well_formed_get; auto. }
assert (Hsingle :
  well_formed
    (assign (assign df1 "Type" (type_of_sign (texts E (get raw a))))
       "Amount"
       (abs_series
          (get (assign df1 "Type" (type_of_sign (texts E (get raw a)))) "Amount")))
  = true).
{ assert (W2 : well_formed (assign df1 "Type" (type_of_sign (texts E (get raw a))))
               = true).
  { apply well_formed_assign; [assumption|].
    unfold type_of_sign, texts. cbn [cells]. rewrite !length_map.
    change (nrows df1) with (nrows df). rewrite Hn.
    apply well_formed_get; [assumption | now apply has_col_In]. }
  apply well_formed_assign; [assumption|].
  rewrite length_abs_series. apply well_formed_get; [assumption|].
  apply has_col_assign_keep, has_col_assign_same. }
destruct (truthy (debit_col (classify (names raw)))) as [d|] eqn:Ed,
         (truthy (credit_col (classify (names raw)))) as [c|] eqn:Ec;
  try exact Hsingle.
apply truthy_some in Ed, Ec.
apply Hd in Ed as [Ed _]. apply Hc in Ec as [Ec _].
set (df2 := assign df1 "Debit" (parsed_side E (get df1 d))).
assert (W2 : well_formed df2 = true).
{ apply well_formed_assign; [assumption|].
  rewrite length_parsed_side. apply well_formed_get; [assumption|].
  apply has_col_assign_keep. auto. }
set (df3 := assign df2 "Credit" (parsed_side E (get df2 c))).
assert (W3 : well_formed df3 = true).
{ apply well_formed_assign; [assumption|].
  rewrite length_parsed_side. apply well_formed_get; [assumption|].
  apply has_col_assign_keep, has_col_assign_keep. auto. }
assert (L3c : length (cells (get df3 "Credit")) = nrows df3).
{ apply well_formed_get; [assumption | apply has_col_assign_same]. }
assert (L3d : length (cells (get df3 "Debit")) = nrows df3).
{ apply well_formed_get; [assumption|].
  apply has_col_assign_keep, has_col_assign_same. }
set (df4 := assign df3 "Amount"
              (fillna_series E (zero_to_nan_series E (get df3 "Credit"))
                 (get df3 "Debit"))).
assert (W4 : well_formed df4 = true).
{ apply well_formed_assign; [assumption|].
  rewrite length_fillna_series; rewrite length_zero_to_nan; congruence. }
set (df5 := assign df4 "Amount" (fillna_zero (abs_series (get df4 "Amount")))).
assert (W5 : well_formed df5 = true).
{ apply well_formed_assign; [assumption|].
  rewrite length_fillna_zero, length_abs_series.
  apply well_formed_get; [assumption | apply has_col_assign_same]. }
apply well_formed_assign; [assumption|].
cbn [type_of_credit cells]. rewrite length_map.
apply well_formed_get; [assumption|].
apply has_col_assign_keep, has_col_assign_keep, has_col_assign_same.
Qed.

Lemma well_formed_ingest raw :
well_formed raw = true -> well_formed (ingest E raw) = true.
Proof.
intros Hwf. rewrite ingest_unfold.
pose proof (well_formed_after_amount raw Hwf) as Ha.
assert (Hc : well_formed (with_category (after_amount E raw)) = true).
{ unfold with_category. destruct (negb _); [|assumption].
  now apply well_formed_assign_scalar. }
unfold with_date_display. apply well_formed_apply; [assumption|].
eapply writes_keeps_col; [apply with_category_writes|].
unfold after_amount.
eapply writes_keeps_col; [apply with_amount_writes|].
unfold after_merchant.
eapply writes_keeps_col; [apply with_merchant_writes|].
unfold after_date, with_date.
destruct (truthy _); apply has_col_assign_same.
Qed.

Lemma ingest_category raw :
cells (get (ingest E raw) "Category")
= if has_col raw "Category" then cells (get raw "Category")
  else repeat (VStr "") (nrows raw).
Proof.
rewrite ingest_unfold.
rewrite (writes_get _ _ _ "Category" (with_date_display_writes _)) by reflexivity.
assert (Hh : has_col (after_amount E raw) "Category" = has_col raw "Category").
{ unfold after_amount, after_merchant, after_date.
  rewrite (writes_has_col _ _ _ "Category" (with_amount_writes E _ _ _)) by reflexivity.
  rewrite (writes_has_col _ _ _ "Category" (with_merchant_writes E _ _)) by reflexivity.
  now rewrite (writes_has_col _ _ _ "Category" (with_date_writes E _ _)) by reflexivity. }
unfold with_category. rewrite Hh.
destruct (has_col raw "Category"); cbn [negb].
- unfold after_amount, after_merchant, after_date.
  rewrite (writes_get _ _ _ "Category" (with_amount_writes E _ _ _)) by reflexivity.
  rewrite (writes_get _ _ _ "Category" (with_merchant_writes E _ _)) by reflexivity.
  now rewrite (writes_get _ _ _ "Category" (with_date_writes E _ _)) by reflexivity.
- unfold assign_scalar. rewrite get_assign_same. cbn [cells].
  f_equal. unfold after_amount.
  rewrite (writes_nrows _ _ _ (with_amount_writes E _ _ _)).
  apply nrows_after_merchant.
Qed.

End Columns.

Import SampleFrames.

Lemma no_amount_column_defaults_witness :
  cells (get (normalize Sample.env no_filter two_sided) "Amount")
  = repeat (VNum zero) 2.
Proof.
  apply (no_amount_column_defaults Sample.env two_sided "Debit" "Credit");
    reflexivity.
Defined.

(** C10 fails as stated: in [dated] no column matches the narration
    patterns and the first object column of the input is "Date", yet the
    merchant comes from the column "Info"; extraction from the "Date"
    column would have given "2024-01-05". *)
Lemma merchant_column_counterexample :
  narration_col (classify (names dated)) = None
  /\ text_cols dated = ["Date"; "Info"]%string
  /\ cells (get (normalize Sample.env no_filter dated) "Merchant") = [VStr "AMAZON"]
  /\ map (merchant_cell Sample.env) (cells (get dated "Date")) = [VStr "2024-01-05"].
Proof. repeat split; vm_compute; reflexivity. Qed.

Lemma merchant_without_narration_witness :
  cells (get (normalize Sample.env no_filter dated) "Merchant")
  = map (merchant_cell Sample.env) (cells (get dated "Info")).
Proof.
  exact (merchant_without_narration Sample.env dated eq_refl).
Defined.

(** *** The run with its exceptions *)

Lemma display_frame_returns E sb raw out :
  display_frame E sb raw = Returns out -> out = normalize E sb raw.
Proof.
  unfold display_frame, date_display_line, search_lines, and_then.
  destruct (dt_ok E _); [|discriminate].
  unfold normalize, ingest, filter_search.
  destruct (String.eqb (global_search sb) "").
  - intros H. now injection H as <-.
  - destruct (search_ok E _ _ _ _ _); [|discriminate].
    intros H. now injection H as <-.
Qed.

Lemma date_column_kept E raw :
  get (with_category (after_amount E raw)) "Date" = get (after_date E raw) "Date".
Proof.
  rewrite (writes_get _ _ _ "Date" (with_category_writes _)) by reflexivity.
  unfold after_amount.
  rewrite (writes_get _ _ _ "Date" (with_amount_writes E _ _ _)) by reflexivity.
  unfold after_merchant.
  now rewrite (writes_get _ _ _ "Date" (with_merchant_writes E _ _)) by reflexivity.
Qed.

Lemma display_frame_no_filter E raw :
  display_frame E no_filter raw
  = if dt_ok E (get (after_date E raw) "Date")
    then Returns (normalize E no_filter raw) else Raises.
Proof.
  unfold display_frame, date_display_line. rewrite date_column_kept.
  destruct (dt_ok E _); reflexivity.
Qed.

(** The columns Merchant, Amount and Type of a frame shown without
    filter are those that lines 197-226 wrote. *)
Lemma shown_column E raw out c :
  display_frame E no_filter raw = Returns out ->
  existsb (String.eqb c) ["Merchant"; "Amount"; "Type"]%string = true ->
  get out c = get (after_amount E raw) c.
Proof.
  intros Hout Hc. apply display_frame_returns in Hout. subst out.
  simpl in Hc. rewrite orb_false_r, !orb_true_iff in Hc.
  destruct Hc as [H | [H | H]]; apply String.eqb_eq in H; subst c;
    rewrite normalize_get by reflexivity;
    rewrite filtered_no_filter; now apply ingest_get.
Qed.

End FrameFacts.


(** ** Rows of the display frame *)

Module RowFacts.

Import Py Re Values Dates Amounts Merchant Frame.
Import PyFacts ReFacts AmountFacts FrameFacts.

Lemma found_differ p a c :
  found p a = true -> found p c = false -> String.eqb c a = false.
Proof.
  intros Ha Hc. destruct (String.eqb c a) eqn:Heq; [|reflexivity].
  apply String.eqb_eq in Heq. congruence.
Qed.

(** A role that resolved is a name that [if x:] accepts. *)
Lemma truthy_role p cols x y :
  role_ok p cols x -> found p "" = false -> x = Some y -> truthy x = Some y.
Proof.
  intros Hr Hp ->. destruct (Hr y eq_refl) as [_ Hy]. simpl.
  now rewrite String.eqb_sym, (found_differ p y "" Hy Hp).
Qed.

Section Rows.

Variable E : Env.
Variable raw : DataFrame.

Let r := classify (names raw).

(** A column that the date and merchant steps leave alone reads the
    same in the working frame as in the input. *)
Lemma after_merchant_get c :
  existsb (String.eqb c) ["Date"; "Merchant"]%string = false ->
  get (after_merchant E raw) c = get raw c.
Proof.
  intros Hc. simpl in Hc. rewrite orb_false_r in Hc.
  apply orb_false_iff in Hc as [Hd Hm].
  unfold after_merchant, after_date.
  rewrite (writes_get ["Merchant"%string] _ _ c (with_merchant_writes E _ _))
    by (simpl; now rewrite Hm).
  apply (writes_get ["Date"%string] _ _ c (with_date_writes E _ _)).
  simpl. now rewrite Hd.
Qed.

Lemma role_column_get p c :
  found p c = true -> found p "Date" = false -> found p "Merchant" = false ->
  get (after_merchant E raw) c = get raw c.
Proof.
  intros Hc Hd Hm. apply after_merchant_get. simpl.
  rewrite String.eqb_sym, (found_differ p c "Date" Hc Hd).
  rewrite String.eqb_sym, (found_differ p c "Merchant" Hc Hm).
  reflexivity.
Qed.

(** The columns Amount and Type after lines 208-226, in terms of the
    columns of the input. *)
Lemma after_amount_single (a : string) :
  amount_col r = Some a ->
  debit_col r = None \/ credit_col r = None ->
  get (after_amount E raw) "Amount" = abs_series (parsed_amount E (get raw a))
  /\ get (after_amount E raw) "Type" = type_of_sign (texts E (get raw a)).
Proof.
  intros Ha Hdc.
  destruct (classify_roles (names raw)) as (_ & _ & Hra & _ & _).
  fold r in Hra.
  pose proof (truthy_role _ _ _ a Hra eq_refl Ha) as Hta.
  destruct (Hra a Ha) as [_ Hfa].
  assert (Hga : get (after_merchant E raw) a = get raw a)
    by (apply (role_column_get pat_amount_col); auto).
  assert (Hdc' : truthy (debit_col r) = None \/ truthy (credit_col r) = None)
    by (destruct Hdc as [-> | ->]; auto).
  destruct (with_amount_single E r raw (after_merchant E raw) a Hta Hdc')
    as [HA HT].
  unfold after_amount. fold r. now rewrite HA, HT, Hga.
Qed.

Lemma after_amount_split (a d c : string) :
  amount_col r = Some a -> debit_col r = Some d -> credit_col r = Some c ->
  get (after_amount E raw) "Amount"
  = fillna_zero
      (abs_series
         (fillna_series E (zero_to_nan_series E (parsed_side E (get raw c)))
            (parsed_side E (get raw d))))
  /\ get (after_amount E raw) "Type" = type_of_credit (parsed_side E (get raw c)).
Proof.
  intros Ha Hd Hc.
  destruct (classify_roles (names raw)) as (_ & _ & Hra & Hrd & Hrc).
  fold r in Hra, Hrd, Hrc.
  pose proof (truthy_role _ _ _ a Hra eq_refl Ha) as Hta.
  pose proof (truthy_role _ _ _ d Hrd eq_refl Hd) as Htd.
  pose proof (truthy_role _ _ _ c Hrc eq_refl Hc) as Htc.
  destruct (Hrd d Hd) as [_ Hfd]. destruct (Hrc c Hc) as [_ Hfc].
  assert (Hgd : get (after_merchant E raw) d = get raw d)
    by (apply (role_column_get pat_debit_col); auto).
  assert (Hgc : get (after_merchant E raw) c = get raw c)
    by (apply (role_column_get pat_credit_col); auto).
  assert (Hda : String.eqb "Amount" d = false)
    by (apply (found_differ pat_debit_col); auto).
  assert (Hca : String.eqb "Amount" c = false)
    by (apply (found_differ pat_credit_col); auto).
  assert (Hcd : String.eqb "Debit" c = false)
    by (apply (found_differ pat_credit_col); auto).
  destruct (with_amount_split E r raw (after_merchant E raw) a d c Hta Htd Htc)
    as [HA HT].
  cbv zeta in HA, HT.
  rewrite (get_assign_other _ "Debit" _ c) in HA, HT by assumption.
  rewrite (get_assign_other _ "Amount" _ c) in HA, HT by assumption.
  rewrite (get_assign_other _ "Amount" _ d) in HA by assumption.
  rewrite Hgd, Hgc in HA. rewrite Hgc in HT.
  unfold after_amount. fold r. now rewrite HA, HT.
Qed.

(** X5: the Amount and Type columns when an amount column resolved and
    the debit and credit columns did not both resolve: the amounts are
    the absolute values of the column that line 209 parsed from the
    input's amount column, and the type of a row is Debit exactly when
    the text of its cell in that column holds a '-'.  A frame shown
    without filter has these two columns. *)
Theorem amount_column_single (a : string) :
  amount_col r = Some a ->
  debit_col r = None \/ credit_col r = None ->
  let amount := map abs_cell (cells (parsed_amount E (get raw a))) in
  let type :=
    map (fun v => VStr (if contains_char "-"%char (of_string (str E v))
                        then Debit else Credit))
        (cells (get raw a)) in
  (cells (get (after_amount E raw) "Amount") = amount
   /\ cells (get (after_amount E raw) "Type") = type)
  /\ forall out,
       display_frame E no_filter raw = Returns out ->
       cells (get out "Amount") = amount /\ cells (get out "Type") = type.
Proof.
  intros Ha Hdc amount type.
  destruct (after_amount_single a Ha Hdc) as [HA HT].
  assert (Hcells : cells (get (after_amount E raw) "Amount") = amount
                   /\ cells (get (after_amount E raw) "Type") = type).
  { rewrite HA, HT. split; [reflexivity|].
    unfold type, type_of_sign, texts. cbn [cells]. rewrite map_map.
    apply map_ext. intros v. now destruct (contains_char _ _). }
  split; [exact Hcells|].
  intros out Hout.
  rewrite !(shown_column E raw out _ Hout) by reflexivity. exact Hcells.
Qed.

Lemma combine_map_l {A B C : Type} (g : A -> C) (l : list A) (l' : list B) :
  combine (map g l) l' = map (fun p => (g (fst p), snd p)) (combine l l').
Proof.
  revert l'. induction l as [|x l IH]; intros [|y l']; simpl; try reflexivity.
  now rewrite IH.
Qed.

Lemma map_combine_fst {A B C : Type} (f : A -> C) (l : list A) (l' : list B) :
  length l = length l' ->
  map (fun p => f (fst p)) (combine l l') = map f l.
Proof.
  revert l'. induction l as [|x l IH]; intros [|y l'] H; simpl in *;
    try reflexivity; try discriminate.
  rewrite IH; [reflexivity | now injection H].
Qed.

Lemma existsb_none {A : Type} (f : A -> bool) (l : list A) x :
  existsb f l = false -> In x l -> f x = false.
Proof.
  intros H Hin. destruct (f x) eqn:Hx; [|reflexivity].
  assert (Ht : existsb f l = true) by (apply existsb_exists; eauto).
  congruence.
Qed.

(** A float64 column that [pd.to_numeric] made holds no integer
    cells. *)
Lemma parsed_side_float s :
  dtype_of (parsed_side E s) = DFloat ->
  Forall (fun v => to_float_cell E v = v) (cells (parsed_side E s)).
Proof.
  unfold parsed_side, to_numeric_series.
  destruct (int_column E _); cbn [fillna_zero dtype_of cells]; [discriminate|].
  intros _. rewrite map_map. apply Forall_forall. intros v Hv.
  apply in_map_iff in Hv as (x & <- & _).
  now destruct (to_numeric E x).
Qed.

(** Lines 214-216 on columns of numbers of one length. *)
Lemma split_amount_cells (credit debit : Series) :
  Forall (fun v => is_number v = true) (cells credit) ->
  Forall (fun v => is_number v = true) (cells debit) ->
  length (cells credit) = length (cells debit) ->
  (dtype_of credit = DFloat ->
   Forall (fun v => to_float_cell E v = v) (cells credit)) ->
  cells (fillna_zero (abs_series (fillna_series E (zero_to_nan_series E credit) debit)))
  = map (fun '(cv, dv) =>
           let v := if cell_is_zero cv then dv else cv in
           abs_cell (if is_float (dtype_of credit)
                        || existsb cell_is_zero (cells credit)
                     then to_float_cell E v else v))
        (combine (cells credit) (cells debit)).
Proof.
  intros Hc Hd Hlen Hfloat.
  rewrite Forall_forall in Hc, Hd.
  unfold zero_to_nan_series.
  destruct (existsb cell_is_zero (cells credit)) eqn:Hz.
  - rewrite orb_true_r. unfold fillna_series. cbn [dtype_of cells fillna_zero abs_series].
    rewrite combine_map_l, !map_map. apply map_ext_in.
    intros [cv dv] Hin. cbn [fst snd].
    pose proof (Hc _ (in_combine_l _ _ _ _ Hin)) as Hcv.
    pose proof (Hd _ (in_combine_r _ _ _ _ Hin)) as Hdv.
    destruct (cell_is_zero cv).
    + destruct dv as [|s|x|z|t|d]; try discriminate; reflexivity.
    + destruct cv as [|s|x|z|t|d]; try discriminate; reflexivity.
  - rewrite orb_false_r. unfold fillna_series.
    assert (Hnz : forall cv dv, In (cv, dv) (combine (cells credit) (cells debit)) ->
                                cell_is_zero cv = false).
    { intros cv dv Hin. eapply existsb_none; [exact Hz|].
      eapply in_combine_l; eauto. }
    destruct (dtype_of credit) eqn:Hdt; cbn [is_float].
    2:{ cbn [dtype_of cells fillna_zero abs_series]. rewrite !map_map.
        specialize (Hfloat eq_refl). rewrite Forall_forall in Hfloat.
        apply map_ext_in. intros [cv dv] Hin.
        pose proof (in_combine_l _ _ _ _ Hin) as Hincv.
        pose proof (Hc _ Hincv) as Hcv.
        rewrite (Hnz cv dv Hin). cbv zeta. rewrite (Hfloat _ Hincv).
        destruct cv as [|s|x|z|t|d]; try discriminate; reflexivity. }
    all: cbn [dtype_of cells fillna_zero abs_series]; rewrite map_map;
      rewrite <- (map_combine_fst (fun v => fill_zero (abs_cell v))
                    (cells credit) (cells debit) Hlen);
      apply map_ext_in; intros [cv dv] Hin;
      pose proof (Hc _ (in_combine_l _ _ _ _ Hin)) as Hcv;
      rewrite (Hnz cv dv Hin); cbn [fst];
      destruct cv as [|s|x|z|t|d]; try discriminate; reflexivity.
Qed.

(** C4, amended: when the amount, debit and credit columns all resolve,
    the amount of a row is the absolute value of the parsed credit cell
    if that is different from 0 and otherwise the absolute value of the
    parsed debit cell (an unparsable cell parsing to 0); the amounts are
    float64 when the parsed credit column is float64 or holds a 0, and
    integers otherwise, with the absolute value of numpy, which gives
    the smallest int64 back as it is.  The type is Credit exactly when
    the parsed credit is greater than 0, else Debit.  A frame shown
    without filter has these two columns. *)
Theorem split_amount_and_type (a d c : string) :
  well_formed raw = true ->
  amount_col r = Some a -> debit_col r = Some d -> credit_col r = Some c ->
  let debit := parsed_side E (get raw d) in
  let credit := parsed_side E (get raw c) in
  let float := is_float (dtype_of credit) || existsb cell_is_zero (cells credit) in
  let amount :=
    map (fun '(cv, dv) =>
           let v := if cell_is_zero cv then dv else cv in
           abs_cell (if float then to_float_cell E v else v))
        (combine (cells credit) (cells debit)) in
  let type :=
    map (fun cv => VStr (if cell_gt0 cv then Credit else Debit)) (cells credit) in
  (cells (get (after_amount E raw) "Amount") = amount
   /\ cells (get (after_amount E raw) "Type") = type)
  /\ forall out,
       display_frame E no_filter raw = Returns out ->
       cells (get out "Amount") = amount /\ cells (get out "Type") = type.
Proof.
  intros Hwf Ha Hd Hc debit credit float amount type.
  destruct (classify_roles (names raw)) as (_ & _ & _ & Hrd & Hrc).
  fold r in Hrd, Hrc.
  destruct (Hrd d Hd) as [Hind _]. destruct (Hrc c Hc) as [Hinc _].
  destruct (after_amount_split a d c Ha Hd Hc) as [HA HT].
  fold debit credit in HA. fold credit in HT.
  assert (Hcells : cells (get (after_amount E raw) "Amount") = amount
                   /\ cells (get (after_amount E raw) "Type") = type).
  { rewrite HA, HT. split.
    2:{ unfold type, type_of_credit. cbn [cells]. apply map_ext.
        intros v. now destruct (cell_gt0 v). }
    apply split_amount_cells.
    - apply parsed_side_numbers.
    - apply parsed_side_numbers.
    - unfold credit, debit. rewrite !length_parsed_side.
      rewrite !well_formed_get; auto using has_col_In.
    - apply parsed_side_float. }
  split; [exact Hcells|].
  intros out Hout.
  rewrite !(shown_column E raw out _ Hout) by reflexivity. exact Hcells.
Qed.

(** A column that [pd.to_numeric] reads as float64, cell by cell. *)
Lemma parsed_amount_as_float (s : Series) :
  int_column E (map (cleaned E) (cells s)) = false ->
  parsed_amount E s = mkSeries DFloat (map (fun v => VNum (parse_amount E v)) (cells s)).
Proof.
  intros H. unfold parsed_amount, to_numeric_series. rewrite H.
  unfold fillna_zero. cbn [dtype_of cells]. rewrite !map_map. f_equal.
  apply map_ext. intros v. unfold parse_amount.
  now destruct (to_numeric E (cleaned E v)).
Qed.

Lemma parsed_side_as_float (s : Series) :
  int_column E (map (uncomma E) (cells s)) = false ->
  parsed_side E s = mkSeries DFloat (map (fun v => VNum (parse_side E v)) (cells s)).
Proof.
  intros H. unfold parsed_side, to_numeric_series. rewrite H.
  unfold fillna_zero. cbn [dtype_of cells]. rewrite !map_map. f_equal.
  apply map_ext. intros v. unfold parse_side.
  now destruct (to_numeric E (uncomma E v)).
Qed.

Lemma combine_maps {A B C D : Type} (f : A -> C) (g : B -> D) l l' :
  combine (map f l) (map g l') = map (fun p => (f (fst p), g (snd p))) (combine l l').
Proof.
  revert l'. induction l as [|x l IH]; intros [|y l']; simpl; try reflexivity.
  now rewrite IH.
Qed.

(** X18: where [pd.to_numeric] reads the columns as float64, lines
    208-226 work row by row.  With an amount column alone, the amount
    and type of a row are what [reconcile_single] gives for the cell of
    the input's amount column; with amount, debit and credit columns,
    they are what [reconcile_split] gives for the cells of the input's
    debit and credit columns. *)
Theorem float_columns_row_by_row :
  (forall a,
     amount_col r = Some a ->
     debit_col r = None \/ credit_col r = None ->
     int_column E (map (cleaned E) (cells (get raw a))) = false ->
     cells (get (after_amount E raw) "Amount")
     = map (fun v => VNum (fst (reconcile_single E v))) (cells (get raw a))
     /\ cells (get (after_amount E raw) "Type")
        = map (fun v => VStr (snd (reconcile_single E v))) (cells (get raw a)))
  /\ (forall a d c,
        well_formed raw = true ->
        amount_col r = Some a -> debit_col r = Some d -> credit_col r = Some c ->
        int_column E (map (uncomma E) (cells (get raw d))) = false ->
        int_column E (map (uncomma E) (cells (get raw c))) = false ->
        cells (get (after_amount E raw) "Amount")
        = map (fun '(cv, dv) => VNum (fst (reconcile_split E dv cv)))
              (combine (cells (get raw c)) (cells (get raw d)))
        /\ cells (get (after_amount E raw) "Type")
           = map (fun '(cv, dv) => VStr (snd (reconcile_split E dv cv)))
                 (combine (cells (get raw c)) (cells (get raw d)))).
Proof.
  split.
  - intros a Ha Hdc Hfl.
    destruct (after_amount_single a Ha Hdc) as [-> ->].
    rewrite (parsed_amount_as_float _ Hfl). split.
    + cbn [abs_series cells]. rewrite map_map. reflexivity.
    + unfold type_of_sign, texts. cbn [cells]. rewrite map_map.
      apply map_ext. intros v. cbn.
      now destruct (contains_char _ _).
  - intros a d c Hwf Ha Hd Hc Hfd Hfc.
    destruct (classify_roles (names raw)) as (_ & _ & _ & Hrd & Hrc).
    fold r in Hrd, Hrc.
    destruct (Hrd d Hd) as [Hind _]. destruct (Hrc c Hc) as [Hinc _].
    destruct (after_amount_split a d c Ha Hd Hc) as [-> ->]. split.
    + rewrite split_amount_cells.
      * rewrite (parsed_side_as_float _ Hfd), (parsed_side_as_float _ Hfc).
        cbn [dtype_of cells is_float orb]. rewrite combine_maps, map_map.
        apply map_ext. intros [cv dv]. cbn [fst snd reconcile_split].
        unfold fillna0. rewrite fillna_zero_to_nan. cbn [cell_is_zero].
        now destruct (num_is_zero (parse_side E cv)).
      * apply parsed_side_numbers.
      * apply parsed_side_numbers.
      * rewrite !length_parsed_side.
        rewrite !well_formed_get; auto using has_col_In.
      * apply parsed_side_float.
    + rewrite (parsed_side_as_float _ Hfc). unfold type_of_credit.
      cbn [cells]. rewrite map_map.
      rewrite <- (map_combine_fst
                    (fun cv => if cell_gt0 (VNum (parse_side E cv))
                               then VStr Credit else VStr Debit)
                    (cells (get raw c)) (cells (get raw d)))
        by (rewrite !well_formed_get; auto using has_col_In).
      apply map_ext. intros [cv dv]. cbn.
      now destruct (num_gt0 (parse_side E cv)).
Qed.

(** X7: the Merchant column when a narration column resolved: each row is
    [extract_merchant] of the cell of that input column. *)
Theorem merchant_from_narration (c : string) :
  narration_col r = Some c ->
  cells (get (normalize E no_filter raw) "Merchant")
  = map (merchant_cell E) (cells (get raw c)).
Proof.
  intros Hc.
  destruct (classify_roles (names raw)) as (_ & Hrn & _). fold r in Hrn.
  pose proof (truthy_role _ _ _ c Hrn eq_refl Hc) as Htc.
  destruct (Hrn c Hc) as [_ Hfc].
  rewrite normalize_get by reflexivity.
  rewrite filtered_no_filter, ingest_get by reflexivity.
  unfold after_amount.
  rewrite (writes_get _ _ _ "Merchant" (with_amount_writes E _ _ _)) by reflexivity.
  unfold after_merchant, with_merchant. fold r. rewrite Htc.
  rewrite get_assign_same. cbn [apply cells]. do 2 f_equal.
  unfold after_date.
  apply (writes_get ["Date"%string] _ _ c (with_date_writes E _ _)).
  simpl. rewrite String.eqb_sym.
  now rewrite (found_differ pat_narration_col c "Date" Hfc eq_refl).
Qed.

(** X8: the Date column when a date column resolved: each row is the
    calendar date of what [try_parse_date] gives for the cell of that
    input column, and null where that is NaT. *)
Theorem date_from_date_column (c : string) :
  date_col r = Some c ->
  cells (get (normalize E no_filter raw) "Date")
  = map (fun v => dt_date_cell (date_cell E v)) (cells (get raw c)).
Proof.
  intros Hc.
  destruct (classify_roles (names raw)) as (Hrd & _). fold r in Hrd.
  pose proof (truthy_role _ _ _ c Hrd eq_refl Hc) as Htc.
  rewrite normalize_display, filtered_no_filter.
  change (get (display (ingest E raw)) "Date")
    with (get (ingest E raw) "Date_display").
  rewrite ingest_unfold. unfold with_date_display.
  rewrite get_assign_same. cbn [apply cells].
  rewrite (writes_get _ _ _ "Date" (with_category_writes _)) by reflexivity.
  unfold after_amount.
  rewrite (writes_get _ _ _ "Date" (with_amount_writes E _ _ _)) by reflexivity.
  unfold after_merchant.
  rewrite (writes_get _ _ _ "Date" (with_merchant_writes E _ _)) by reflexivity.
  unfold after_date, with_date. fold r. rewrite Htc.
  rewrite get_assign_same. cbn [apply cells]. now rewrite map_map.
Qed.

End Rows.

(** *** Type, filters and shape for every sidebar setting *)

Section AnySidebar.

Variable E : Env.

Lemma with_amount_type r raw df :
  Forall is_type (cells (get (with_amount E r raw df) "Type")).
Proof.
  assert (Hsign : forall col, Forall is_type (cells (type_of_sign col))).
  { intros col. unfold type_of_sign. cbn [cells].
    apply Forall_forall. intros v Hv.
    apply in_map_iff in Hv as (s & <- & _).
    destruct (contains_char _ _); [left | right]; reflexivity. }
  destruct (truthy (amount_col r)) as [a|] eqn:Ha.
  2:{ destruct (with_amount_none E r raw df Ha) as [_ ->]. cbn [cells].
      apply Forall_repeat. now left. }
  destruct (truthy (debit_col r)) as [d|] eqn:Hd.
  2:{ destruct (with_amount_single E r raw df a Ha (or_introl Hd)) as [_ ->].
      apply Hsign. }
  destruct (truthy (credit_col r)) as [c|] eqn:Hc.
  2:{ destruct (with_amount_single E r raw df a Ha (or_intror Hc)) as [_ ->].
      apply Hsign. }
  destruct (with_amount_split E r raw df a d c Ha Hd Hc) as [_ ->].
  unfold type_of_credit. cbn [cells].
  apply Forall_forall. intros v Hv.
  apply in_map_iff in Hv as (x & <- & _).
  destruct (cell_gt0 x); [right | left]; reflexivity.
Qed.

(** X9: every cell of the Type column of the display frame is "Debit" or
    "Credit", for every input frame and every setting of the sidebar. *)
Theorem type_debit_or_credit (sb : Sidebar) (raw : DataFrame) :
  Forall is_type (cells (get (normalize E sb raw) "Type")).
Proof.
  rewrite normalize_get by reflexivity.
  apply filtered_Forall. rewrite ingest_get by reflexivity.
  apply with_amount_type.
Qed.

Lemma select_length {A : Type} (mask : list bool) (l : list A) :
  length (select mask l)
  = length (filter (fun b => b) (firstn (length l) mask)).
Proof.
  revert l. induction mask as [|b mask IH]; intros [|x l]; simpl;
    try reflexivity.
  destruct b; simpl; now rewrite IH.
Qed.

Lemma well_formed_filter_rows mask df :
  well_formed df = true -> well_formed (filter_rows mask df) = true.
Proof.
  unfold well_formed, filter_rows. cbn [columns nrows].
  rewrite !forallb_forall. intros Hwf [n s] Hin.
  apply in_map_iff in Hin as ([n' s'] & Heq & Hin).
  injection Heq as <- <-. cbn [snd cells].
  specialize (Hwf _ Hin). cbn [snd] in Hwf. apply Nat.eqb_eq in Hwf.
  apply Nat.eqb_eq. now rewrite select_length, Hwf.
Qed.

Lemma nrows_filter_rows mask df : nrows (filter_rows mask df) <= nrows df.
Proof.
  unfold filter_rows. cbn [nrows].
  etransitivity; [apply filter_length_le|].
  rewrite length_firstn. apply Nat.le_min_l.
Qed.

Lemma well_formed_filtered sb w :
  well_formed w = true ->
  well_formed (filtered E sb w) = true /\ nrows (filtered E sb w) <= nrows w.
Proof.
  intros Hwf. unfold filtered, filter_search, filter_max, filter_min.
  destruct (String.eqb (global_search sb) ""), (date_max sb), (date_min sb);
    split;
    repeat first
      [ assumption
      | apply well_formed_filter_rows
      | apply Nat.le_refl
      | (etransitivity; [apply nrows_filter_rows|]) ].
Qed.

Lemma well_formed_display w :
  well_formed w = true -> forallb (has_col w) display_cols = true ->
  well_formed (display w) = true.
Proof.
  intros Hwf Hcols. unfold display_cols in Hcols. cbn [forallb] in Hcols.
  rewrite !andb_true_iff in Hcols.
  destruct Hcols as (H1 & H2 & H3 & H4 & H5 & _).
  unfold well_formed, display, display_cols. cbn [columns map forallb snd nrows].
  rewrite !well_formed_get by assumption.
  now rewrite Nat.eqb_refl.
Qed.

(** C6, amended: whenever lines 157-260 run to the end on an input
    whose columns all have one cell per row, the display frame has
    exactly the columns Date, Merchant, Amount, Type, Category and at
    most as many rows as the input, and its Category column holds the
    empty string in every row if the input has no column named
    "Category".  With no sidebar filter set the frame has one row per
    input row in each of its columns, and its Category column is the
    input's column of that name when there is one.  The run does not
    always get that far: with no filter set it raises exactly when the
    Date column that line 190 or 194 wrote is not datetime-like. *)
Theorem display_frame_shape (raw : DataFrame) :
  well_formed raw = true ->
  (forall sb out,
     display_frame E sb raw = Returns out ->
     names out = ["Date"; "Merchant"; "Amount"; "Type"; "Category"]%string
     /\ nrows out <= nrows raw
     /\ (has_col raw "Category" = false ->
         Forall (eq (VStr "")) (cells (get out "Category"))))
  /\ (forall out,
        display_frame E no_filter raw = Returns out ->
        nrows out = nrows raw
        /\ Forall (fun col => length (cells (snd col)) = nrows raw) (columns out)
        /\ cells (get out "Category")
           = (if has_col raw "Category" then cells (get raw "Category")
              else repeat (VStr "") (nrows raw)))
  /\ (display_frame E no_filter raw = Raises
      <-> dt_ok E (get (after_date E raw) "Date") = false).
Proof.
  intros Hwf.
  pose proof (well_formed_ingest E raw Hwf) as Hi.
  pose proof (ingest_has_cols E raw) as Hcols.
  split; [|split].
  - intros sb out Hout. apply display_frame_returns in Hout. subst out.
    split; [|split].
    + rewrite normalize_display. apply names_display.
    + rewrite normalize_display. cbn [display nrows].
      rewrite <- (nrows_ingest E raw).
      now apply well_formed_filtered.
    + intros Hc. rewrite normalize_get by reflexivity. apply filtered_Forall.
      rewrite ingest_category, Hc. apply Forall_repeat. reflexivity.
  - intros out Hout. apply display_frame_returns in Hout. subst out.
    split; [|split].
    + rewrite normalize_display, filtered_no_filter. cbn [display nrows].
      apply nrows_ingest.
    + rewrite normalize_display, filtered_no_filter.
      unfold display, display_cols in *. cbn [columns map].
      cbn [forallb] in Hcols. rewrite !andb_true_iff in Hcols.
      destruct Hcols as (H1 & H2 & H3 & H4 & H5 & _).
      repeat constructor; cbn [snd];
        rewrite well_formed_get by assumption; apply nrows_ingest.
    + rewrite normalize_get by reflexivity.
      rewrite filtered_no_filter. apply ingest_category.
  - rewrite display_frame_no_filter.
    destruct (dt_ok E _); split; intros H; try discriminate; reflexivity.
Qed.

(** X17: whenever the display frame is built, for every input frame and
    every setting of the sidebar, each cell of its Amount column is a
    number that is not negative or the smallest int64, the one integer
    that [abs] gives back as it is. *)
Theorem amount_nonnegative_or_int64_min (sb : Sidebar) (raw out : DataFrame) :
  display_frame E sb raw = Returns out ->
  Forall amount_or_min (cells (get out "Amount")).
Proof.
  intros Hout. apply display_frame_returns in Hout. subst out.
  rewrite normalize_get by reflexivity.
  apply filtered_Forall. rewrite ingest_get by reflexivity.
  apply with_amount_cells.
Qed.

End AnySidebar.

(** *** The single-amount path on a produced Amount column *)

Section Rerun.

Variable E : Env.



End Rerun.

End RowFacts.


(** ** Column classification *)

Module ClassifyFacts.

Import Py Re Merchant Frame FrameFacts.

Lemma first_found_first p cols : first_match p cols (first_found p cols).
Proof.
  induction cols as [|c cols IH]; simpl; [constructor|].
  destruct (found p c) eqn:Hc.
  - exists [], cols. auto.
  - destruct (first_found p cols) as [x|]; simpl in *.
    + destruct IH as (pre & post & -> & Hx & Hpre).
      exists (c :: pre), post. auto.
    + constructor; assumption.
Qed.

(** What the guarded assignment of lines 178-184 leaves in a role that
    held [x] before the columns [cols] were seen. *)
Lemma keep_first_fold cols a d c :
  fold_left
    (fun '(a, d, c) col =>
       (keep_first pat_amount_col col a,
        keep_first pat_debit_col col d,
        keep_first pat_credit_col col c))
    cols (a, d, c)
  = (match a with Some _ => a | None => first_found pat_amount_col cols end,
     match d with Some _ => d | None => first_found pat_debit_col cols end,
     match c with Some _ => c | None => first_found pat_credit_col cols end).
Proof.
  revert a d c. induction cols as [|col cols IH]; intros a d c; simpl.
  - now destruct a, d, c.
  - rewrite IH. unfold keep_first.
    destruct a, d, c; simpl; rewrite ?andb_false_r, ?andb_true_r;
      repeat match goal with
             | |- context [found ?p col] => destruct (found p col)
             end; reflexivity.
Qed.

(** X4: each of the five roles goes to the first column, in the order of
    the input, whose name matches the pattern of the role, and stays
    unresolved exactly when no name matches; the loop without [break]
    of lines 178-184 gives the same as the loops with [break], and the
    roles are filled independently of one another. *)
Theorem classify_first_match (cols : list string) :
  let r := classify cols in
  first_match pat_date_col cols (date_col r)
  /\ first_match pat_narration_col cols (narration_col r)
  /\ first_match pat_amount_col cols (amount_col r)
  /\ first_match pat_debit_col cols (debit_col r)
  /\ first_match pat_credit_col cols (credit_col r).
Proof.
  unfold classify, amount_roles. rewrite keep_first_fold. simpl.
  repeat split; apply first_found_first.
Qed.

End ClassifyFacts.

(** ** More on the merchant extractor *)

Module MerchantExtras.

Import Py Re ReFacts PyFacts GroupFacts Merchant MerchantFacts.

Lemma infix_nil s : infix [] s.
Proof. exists [], s. reflexivity. Qed.

Lemma infix_refl s : infix s s.
Proof. exists [], []. now rewrite app_nil_r. Qed.

Lemma infix_trans t u s : infix t u -> infix u s -> infix t s.
Proof.
  intros (a & b & ->) (a' & b' & ->).
  exists (a' ++ a), (b ++ b'). now rewrite !app_assoc.
Qed.

Lemma infix_cons c t s : infix t s -> infix t (c :: s).
Proof. intros (a & b & ->). now exists (c :: a), b. Qed.

Lemma infix_app_l a t s : infix t s -> infix t (a ++ s).
Proof. intros (a' & b & ->). exists (a ++ a'), b. now rewrite app_assoc. Qed.

Lemma lstrip_suffix s : exists a, s = a ++ lstrip s.
Proof.
  induction s as [|c s (a & Ha)]; simpl; [now exists []|].
  destruct (is_space c).
  - exists (c :: a). simpl. now rewrite <- Ha.
  - now exists [].
Qed.

Lemma strip_infix s : infix (strip s) s.
Proof.
  unfold strip, rstrip.
  destruct (lstrip_suffix s) as (a & Ha).
  destruct (lstrip_suffix (rev (lstrip s))) as (b & Hb).
  exists a, (rev b). rewrite Ha at 1. f_equal.
  rewrite <- rev_app_distr, <- Hb. now rewrite rev_involutive.
Qed.

Lemma slice_infix n s : infix (slice_to n s) s.
Proof.
  exists [], (skipn n s). unfold slice_to. simpl. now rewrite firstn_skipn.
Qed.

Lemma forallb_infix (p : ascii -> bool) t s :
  infix t s -> forallb p s = true -> forallb p t = true.
Proof.
  intros (a & b & ->). rewrite !forallb_app, !andb_true_iff. tauto.
Qed.

(** The first part of a split is a prefix and every part is a piece. *)
Lemma split_on_parts p s :
  exists part parts,
    split_on p s = part :: parts
    /\ (exists b, s = part ++ b)
    /\ Forall (fun x => infix x s) parts.
Proof.
  induction s as [|c s (part & parts & Hs & (b & Hb) & Hparts)]; simpl.
  - exists [], []. repeat split; [now exists [] | constructor].
  - rewrite Hs. destruct (p c).
    + exists [], (part :: parts). repeat split; [now exists (c :: s)|].
      constructor.
      * exists [c], b. simpl. now rewrite <- Hb.
      * eapply Forall_impl; [|exact Hparts]. intros x. apply infix_cons.
    + exists (c :: part), parts. repeat split.
      * exists b. simpl. now rewrite <- Hb.
      * eapply Forall_impl; [|exact Hparts]. intros x. apply infix_cons.
Qed.

Lemma first_meaningful_infix parts s r :
  Forall (fun x => infix x s) parts ->
  first_meaningful parts = Some r -> infix r s.
Proof.
  induction 1 as [|part parts Hp _ IH]; cbn [first_meaningful]; [discriminate|].
  destruct (meaningful (strip part)); [|exact IH].
  intros H. injection H as <-.
  eapply infix_trans; [apply slice_infix|].
  eapply infix_trans; [apply strip_infix | exact Hp].
Qed.

Lemma rule_split_infix s r : rule_split s = Some r -> infix r s.
Proof.
  unfold rule_split.
  destruct (split_on_parts (one_of ",|:-") s) as (part & parts & -> & (b & Hb) & Hparts).
  apply first_meaningful_infix. constructor; [|assumption].
  exists [], b. exact Hb.
Qed.

(** The group text is a piece of the input the pattern started on. *)
Lemma step_group_infix n0 r s g s' g' :
  step n0 r s g s' g' -> g' = g \/ exists t, g' = Some t /\ infix t s.
Proof.
  induction 1; auto.
  - destruct (step_prefix _ _ _ _ _ _ H) as (pre & ->).
    destruct IHstep2 as [-> | (t & -> & Ht)].
    + destruct IHstep1 as [-> | (t & -> & Ht)]; eauto.
    + right. exists t. split; [reflexivity|]. now apply infix_app_l.
  - right. destruct (step_prefix _ _ _ _ _ _ H) as (pre & ->).
    rewrite firstn_consumed. eexists. split; [reflexivity|].
    exists [], s'. reflexivity.
Qed.

Lemma search_group_infix r s m : re_search r s = Some m -> infix (group1 m) s.
Proof.
  intros H. apply re_search_sound in H as (pre & s0 & -> & H).
  apply step_group_infix in H. unfold group1.
  destruct H as [-> | (t & -> & Ht)]; [apply infix_nil|].
  now apply infix_app_l.
Qed.

Ltac rule_infix :=
  match goal with
  | |- context [re_search ?p ?s] =>
      destruct (re_search p s) as [m|] eqn:Hm; [|discriminate];
      try (destruct (accept_name _); [|discriminate]);
      try (destruct (2 <? _); [|discriminate]);
      intros H; injection H as <-;
      eapply infix_trans; [apply strip_infix | eapply search_group_infix; eauto]
  end.

Lemma rule_infix_all s r :
  rule_upi s = Some r \/ rule_rev s = Some r \/ rule_ft s = Some r
  \/ rule_atupi s = Some r \/ rule_to s = Some r \/ rule_from s = Some r ->
  infix r s.
Proof.
  intros [H | [H | [H | [H | [H | H]]]]]; revert H.
  - unfold rule_upi. rule_infix.
  - unfold rule_rev. rule_infix.
  - unfold rule_ft. rule_infix.
  - unfold rule_atupi. rule_infix.
  - unfold rule_to. rule_infix.
  - unfold rule_from. rule_infix.
Qed.

Lemma extract_merchant_text_infix s : infix (extract_merchant_text s) s.
Proof.
  unfold extract_merchant_text.
  destruct (rule_upi s) eqn:H1; [apply rule_infix_all; auto|].
  destruct (rule_rev s) eqn:H2; [apply rule_infix_all; auto|].
  destruct (rule_ft s) eqn:H3; [apply rule_infix_all; auto|].
  destruct (rule_atupi s) eqn:H4; [apply rule_infix_all; auto 6|].
  destruct (rule_to s) eqn:H5; [apply rule_infix_all; auto 7|].
  destruct (rule_from s) eqn:H6; [apply rule_infix_all; auto 8|].
  destruct (rule_split s) eqn:H7; [now apply rule_split_infix|].
  apply slice_infix.
Qed.

Lemma to_string_app a b : to_string (a ++ b) = (to_string a ++ to_string b)%string.
Proof. induction a as [|c a IH]; simpl; [reflexivity | now rewrite IH]. Qed.

(** X1: the extractor never makes up text: whatever rule answers, the
    result is a contiguous piece of the narration. *)
Theorem extract_merchant_is_piece (s : string) :
  exists a b : string,
    s = (a ++ extract_merchant (Some s) ++ b)%string.
Proof.
  destruct (extract_merchant_text_infix (of_string s)) as (a & b & H).
  exists (to_string a), (to_string b). simpl.
  rewrite <- !to_string_app, <- H. symmetry. apply to_of_string.
Qed.

(** *** Characters of a captured name *)

Lemma step_over_class n0 p r s g s' g' :
  over_class p r -> step n0 r s g s' g' ->
  exists pre, s = pre ++ s' /\ forallb p pre = true.
Proof.
  intros Hr Hs. revert Hr.
  induction Hs; intros Hr; inversion Hr; subst.
  - exists [c]. simpl. now rewrite H.
  - now exists [].
  - destruct (IHHs1 H1) as (p1 & -> & Hp1).
    destruct (IHHs2 H2) as (p2 & -> & Hp2).
    exists (p1 ++ p2). rewrite app_assoc, forallb_app, Hp1, Hp2. auto.
  - now apply star_prefix.
  - now apply star_prefix.
Qed.

Lemma step_groups_over n0 p r s g s' g' :
  groups_over p r -> step n0 r s g s' g' ->
  g' = g \/ exists t, g' = Some t /\ forallb p t = true.
Proof.
  intros Hr Hs. revert Hr.
  induction Hs; intros Hr; inversion Hr; subst; auto.
  - destruct (IHHs2 H2) as [-> | ?]; auto.
  - right. destruct (step_over_class _ _ _ _ _ _ _ H0 Hs) as (pre & -> & Hpre).
    rewrite firstn_consumed. eauto.
Qed.

Lemma search_groups_over p r s m :
  groups_over p r -> re_search r s = Some m -> forallb p (group1 m) = true.
Proof.
  intros Hr H. apply re_search_sound in H as (pre & s0 & _ & H).
  apply (step_groups_over _ p) in H; [|assumption]. unfold group1.
  destruct H as [-> | (t & -> & Ht)]; auto.
Qed.

Lemma lit_groups_over p s : groups_over p (lit s).
Proof.
  unfold lit. induction (of_string s) as [|c [|c' l] IH]; simpl;
    repeat constructor. exact IH.
Qed.

Lemma pat_upi_groups : groups_over (none_of "-@") pat_upi.
Proof.
  unfold pat_upi, name_end, seqs, alts, PlusLazy.
  repeat first [apply lit_groups_over | constructor].
Qed.

Lemma pat_rev_groups : groups_over (none_of "-@") pat_rev.
Proof.
  unfold pat_rev, name_end, seqs, alts, PlusLazy, Plus.
  repeat first [apply lit_groups_over | constructor].
Qed.

Lemma pat_ft_groups : groups_over (none_of "-") pat_ft.
Proof.
  unfold pat_ft, seqs, alts, PlusLazy, Plus, Opt.
  repeat first [apply lit_groups_over | constructor].
Qed.

(** X3: a name returned by pattern 1 or 2 holds neither '-' nor '@', and a
    name returned by pattern 3 holds no '-'. *)
Theorem returned_name_characters (s : string) :
  let r := of_string (extract_merchant (Some s)) in
  match fired (Some s) with
  | RUpi | RRev => forallb (none_of "-@") r = true
  | RFt => forallb (none_of "-") r = true
  | _ => True
  end.
Proof.
  simpl. rewrite of_to_string.
  pose proof (fired_text_cases (of_string s)) as H. simpl in H.
  destruct (fired_text (of_string s)); auto.
  - unfold rule_upi in H.
    destruct (re_search pat_upi _) as [m|] eqn:Hm; [|discriminate].
    destruct (accept_name _); [|discriminate]. injection H as <-.
    eapply forallb_infix; [apply strip_infix|].
    eapply search_groups_over; [apply pat_upi_groups | eassumption].
  - destruct H as [_ H]. unfold rule_rev in H.
    destruct (re_search pat_rev _) as [m|] eqn:Hm; [|discriminate].
    destruct (accept_name _); [|discriminate]. injection H as <-.
    eapply forallb_infix; [apply strip_infix|].
    eapply search_groups_over; [apply pat_rev_groups | eassumption].
  - unfold rule_ft in H.
    destruct (re_search pat_ft _) as [m|] eqn:Hm; [|discriminate].
    destruct (2 <? _); [|discriminate]. injection H as <-.
    eapply forallb_infix; [apply strip_infix|].
    eapply search_groups_over; [apply pat_ft_groups | eassumption].
Qed.

(** *** Reversal narrations

    Pattern 1 is tried first and matches inside "REV-UPI-". *)








End MerchantExtras.


(** ** Reading the upload *)

Module UploadFacts.

Import Py Values Frame Upload.

Lemma finish_cases {S : Type} (r : attempt DataFrame * S) :
  (exists df, frame (finish r) = Some df /\ errors (finish r) = [])
  \/ (exists msg, frame (finish r) = None /\ errors (finish r) = [msg]).
Proof. destruct r as [[df | e] f]; simpl; eauto. Qed.

Lemma read_cases {S : Type} (R : Readers S) (name : string) (f : S) :
  (exists df, frame (read_uploaded_file R name f) = Some df
              /\ errors (read_uploaded_file R name f) = [])
  \/ (exists msg, frame (read_uploaded_file R name f) = None
                  /\ errors (read_uploaded_file R name f) = [msg]).
Proof.
  unfold read_uploaded_file.
  destruct (ends_with ".csv" name); [apply finish_cases|].
  destruct (ends_with ".xlsx" name || ends_with ".xls" name);
    [apply finish_cases|].
  destruct (ends_with ".txt" name); [|simpl; eauto].
  destruct (read_csv_sniff R f) as [[df | e] f']; [simpl; eauto|].
  apply finish_cases.
Qed.

(** X12: whatever the readers do, [read_uploaded_file] either returns a
    frame and reports nothing, or returns [None] and reports exactly
    one error. *)
Theorem read_frame_or_one_error {S : Type} (R : Readers S) (name : string) (f : S) :
  let o := read_uploaded_file R name f in
  (exists df, frame o = Some df /\ errors o = [])
  \/ (exists msg, frame o = None /\ errors o = [msg]).
Proof.
  unfold read_uploaded_file.
  destruct (ends_with ".csv" name); [apply finish_cases|].
  destruct (ends_with ".xlsx" name || ends_with ".xls" name);
    [apply finish_cases|].
  destruct (ends_with ".txt" name); [|cbn; eauto].
  destruct (read_csv_sniff R f) as [[df | e] f']; [cbn; eauto|].
  apply finish_cases.
Qed.

Lemma ends_with_app (suffix stem tail : string) :
  String.length suffix = String.length tail ->
  ends_with suffix (stem ++ tail) = Amounts.starts_with (rev (of_string suffix)) (rev (of_string tail)).
Proof.
  intros Hl. unfold ends_with.
  assert (Happ : of_string (stem ++ tail) = of_string stem ++ of_string tail).
  { induction stem as [|c stem IH]; simpl; [reflexivity | now rewrite IH]. }
  rewrite Happ, rev_app_distr.
  assert (Hlen : length (rev (of_string suffix)) = length (rev (of_string tail))).
  { rewrite !length_rev. unfold of_string.
    rewrite <- (string_of_list_ascii_of_string suffix) in Hl.
    rewrite <- (string_of_list_ascii_of_string tail) in Hl.
    now rewrite !PyFacts.to_string_length in Hl. }
  revert Hlen. generalize (rev (of_string suffix)) (rev (of_string tail)) (rev (of_string stem)).
  intros p. induction p as [|a p IH]; intros [|b q] u Hlen; try discriminate.
  - now destruct u.
  - simpl. destruct (eqb_char a b); [|reflexivity].
    apply IH. simpl in Hlen. lia.
Qed.

(** X13: the extension is compared in the given letter case: a file whose
    name ends in ".CSV" is answered with "Unsupported file type", no
    reader is called and the stream is left as it was. *)
Theorem upper_case_extension_unsupported {S : Type} (R : Readers S)
        (stem : string) (f : S) :
  read_uploaded_file R (stem ++ ".CSV") f
  = mkResult None [("Unsupported file type: " ++ (stem ++ ".CSV"))%string] f.
Proof.
  unfold read_uploaded_file.
  rewrite (ends_with_app ".csv" stem ".CSV") by reflexivity.
  assert (H5 : ends_with ".xlsx" (stem ++ ".CSV") = false).
  { unfold ends_with.
    assert (Happ : of_string (stem ++ ".CSV") = of_string stem ++ of_string ".CSV").
    { induction stem as [|c stem IH]; simpl; [reflexivity | now rewrite IH]. }
    rewrite Happ, rev_app_distr. reflexivity. }
  rewrite H5.
  rewrite (ends_with_app ".xls" stem ".CSV") by reflexivity.
  rewrite (ends_with_app ".txt" stem ".CSV") by reflexivity.
  reflexivity.
Qed.

(** X14: a run on an upload ends in one of three ways.  A display frame
    is shown only if a frame was read, nothing was reported and lines
    157-260 returned that display frame; the run ends with an exception
    if a frame was read and one of these lines raised; and it stops
    after exactly one error message if no frame was read. *)
Theorem load_shows_frame_or_error {S : Type} (R : Readers S) (E : Env)
        (sb : Sidebar) (name : string) (f : S) :
  let o := read_uploaded_file R name f in
  match load R E sb name f with
  | Shown display_df =>
      exists raw, frame o = Some raw /\ errors o = []
                  /\ display_frame E sb raw = Returns display_df
  | Crashed =>
      exists raw, frame o = Some raw /\ errors o = []
                  /\ display_frame E sb raw = Raises
  | Stopped shown =>
      frame o = None /\ exists msg, shown = [msg] /\ errors o = [msg]
  end.
Proof.
  unfold load. cbv zeta.
  destruct (read_cases R name f) as [(df & Hf & He) | (msg & Hf & He)];
    rewrite Hf.
  - destruct (display_frame E sb df) eqn:Hd; eauto.
  - rewrite He. eauto.
Qed.

End UploadFacts.


(** ** The theorems above at the sample frames *)

Module Samples.

Import Py Values Amounts Frame Upload SampleFrames.

(** C7: the amount can be negative.  In [overdrawn] the three amount
    columns resolve and the credit of the row is the smallest int64:
    [pd.to_numeric] makes an int64 column of it, [replace] and [fillna]
    find nothing to change, and the [abs()] of line 216, under the
    comment "ensure positive", gives the number back as it is, so the
    display frame shows the amount -9223372036854775808 with the type
    Debit.  The [abs()] of line 222 does the same in [overdrawn_single],
    where the amount column is alone. *)
Theorem amount_stays_negative :
  display_frame Sample.env no_filter overdrawn
  = Returns (normalize Sample.env no_filter overdrawn)
  /\ cells (get (normalize Sample.env no_filter overdrawn) "Amount")
     = [VInt (-9223372036854775808)]
  /\ cells (get (normalize Sample.env no_filter overdrawn) "Type") = [VStr Debit]
  /\ display_frame Sample.env no_filter overdrawn_single
     = Returns (normalize Sample.env no_filter overdrawn_single)
  /\ cells (get (normalize Sample.env no_filter overdrawn_single) "Amount")
     = [VInt (-9223372036854775808)]
  /\ cells (get (normalize Sample.env no_filter overdrawn_single) "Type")
     = [VStr Debit]
  /\ amount_ok (VInt (-9223372036854775808)) = false.
Proof. repeat split; vm_compute; reflexivity. Qed.



(** C4 fails as stated: in [negative_credit] the debit is 3 and the
    credit -5, which is not greater than 0; the amount is 5, the
    absolute value of the credit, and not 3, and the type is Debit. *)
Lemma split_amount_counterexample :
  display_frame Sample.env no_filter negative_credit
  = Returns (normalize Sample.env no_filter negative_credit)
  /\ cells (parsed_side Sample.env (get negative_credit "Debit")) = [VInt 3]
  /\ cells (parsed_side Sample.env (get negative_credit "Credit")) = [VInt (-5)]
  /\ cell_gt0 (VInt (-5)) = false
  /\ cells (get (normalize Sample.env no_filter negative_credit) "Amount") = [VInt 5]
  /\ cells (get (normalize Sample.env no_filter negative_credit) "Type")
     = [VStr Debit].
Proof. repeat split; vm_compute; reflexivity. Qed.

Lemma split_amount_and_type_witness :
  cells (get (after_amount Sample.env ledger) "Amount")
  = [VNum (Fin 500); VNum (Fin 1500)]
  /\ cells (get (after_amount Sample.env ledger) "Type")
     = [VStr Debit; VStr Credit].
Proof.
  exact (proj1 (RowFacts.split_amount_and_type Sample.env ledger
                  "Amount" "Debit" "Credit" eq_refl eq_refl eq_refl eq_refl)).
Defined.

(** C6 fails as stated, in two ways.  The Category column of an upload
    that has one is displayed as it came, in [labelled] with "Food" and
    not with the empty string.  And an upload for which the Date column
    does not come out datetime-like, as [header_only] in the sample
    environment, gets no display frame at all: line 233 raises. *)
Lemma category_counterexample :
  well_formed labelled = true
  /\ has_col labelled "Category" = true
  /\ display_frame Sample.env no_filter labelled
     = Returns (normalize Sample.env no_filter labelled)
  /\ cells (get (normalize Sample.env no_filter labelled) "Category")
     = [VStr "Food"]
  /\ well_formed header_only = true
  /\ display_frame Sample.env no_filter header_only = Raises.
Proof. repeat split; vm_compute; reflexivity. Qed.

Lemma display_frame_shape_witness :
  nrows (normalize Sample.env no_filter labelled) = nrows labelled.
Proof.
  refine (proj1 (proj1 (proj2 (RowFacts.display_frame_shape Sample.env labelled _))
                   (normalize Sample.env no_filter labelled) _));
    vm_compute; reflexivity.
Defined.

Lemma amount_column_single_witness :
  cells (get (after_amount Sample.env statement) "Amount")
  = [VNum (Fin (2469 # 2)); VNum (Fin 2000)]
  /\ cells (get (after_amount Sample.env statement) "Type")
     = [VStr Debit; VStr Credit].
Proof.
  exact (proj1 (RowFacts.amount_column_single Sample.env statement "Amount"
                  eq_refl (or_introl eq_refl))).
Defined.

Lemma float_columns_row_by_row_witness :
  cells (get (after_amount Sample.env ledger_paise) "Amount")
  = [VNum (Fin (1001 # 2)); VNum (Fin (6001 # 4))]
  /\ cells (get (after_amount Sample.env ledger_paise) "Type")
     = [VStr Debit; VStr Credit].
Proof.
  exact (proj2 (RowFacts.float_columns_row_by_row Sample.env ledger_paise)
           "Amount" "Debit" "Credit" eq_refl eq_refl eq_refl eq_refl
           eq_refl eq_refl).
Defined.

Lemma amount_nonnegative_or_int64_min_witness :
  Forall amount_or_min
    (cells (get (normalize Sample.env (mkSidebar None None "amazon") overdrawn)
                "Amount")).
Proof.
  apply (RowFacts.amount_nonnegative_or_int64_min Sample.env
           (mkSidebar None None "amazon") overdrawn).
  vm_compute. reflexivity.
Defined.

Lemma merchant_from_narration_witness :
  cells (get (normalize Sample.env no_filter ledger) "Merchant")
  = [VStr "AMAZON"; VStr "salary june"].
Proof.
  exact (RowFacts.merchant_from_narration Sample.env ledger "Description" eq_refl).
Defined.

Lemma date_from_date_column_witness :
  cells (get (normalize Sample.env no_filter ledger) "Date")
  = [VDate (mkDate 2024 1 5); VNull].
Proof.
  exact (RowFacts.date_from_date_column Sample.env ledger "Txn Date" eq_refl).
Defined.

End Samples.
